(** * ResumeApp: authentication and ownership-scoped resume access

    A shallow embedding of the request handlers of [api/routers.py], the
    data-access objects of [database/crud.py] and the token functions of
    [services/auth_service.py], with the properties the specification states
    about them.

    Conventions of the embedding:
    - the two tables are lists of rows; the constraints the models declare
      ([primary_key=True] on [id], [unique=True] on [User.email]) are the
      predicates [pk_unique] and [unique_emails], assumed where a property
      needs them;
    - every DAO method runs against a [Store] and returns an [outcome]
      together with the store it leaves; a raised [HTTPException] and any
      other raised exception are outcomes of their own;
    - an instant is a number of microseconds since the epoch (the resolution
      of Python's [datetime]);
    - bcrypt (passlib) and the JWS signature (python-jose) are parameters. *)

From Stdlib Require Import ZArith List String Bool Lia DecimalString.
Import ListNotations.
Open Scope string_scope.
Open Scope Z_scope.

(** ** Outcomes of a handler or DAO call *)

(** What a call can end in: a value, [raise HTTPException(status_code, detail)],
    or any other exception, which the framework turns into a 500 response. *)
Inductive outcome (A : Type) : Type :=
| Ok (a : A)
| HTTPException (status_code : Z) (detail : string)
| Unhandled (exc : string).
Arguments Ok {A} a.
Arguments HTTPException {A} status_code detail.
Arguments Unhandled {A} exc.

(** ** database/models/models.py *)

Record User : Type := mkUser {
  user_id_of : Z;              (* User.id *)
  email : string;
  hashed_password : string
}.

Record Resume : Type := mkResume {
  id : Z;
  title : string;
  content : string;
  user_id : Z
}.

(** The database: both tables, the two autoincrement sequences, and the
    number of sessions [BaseDAO.get_session] has handed out so far (every
    DAO method opens exactly one, so this counts the storage accesses). *)
Record Store : Type := mkStore {
  users : list User;
  resumes : list Resume;
  user_seq : Z;
  resume_seq : Z;
  sessions : nat
}.

(** [primary_key=True] on [Resume.id]. *)
Definition pk_unique (t : list Resume) : Prop := NoDup (map id t).

(** [unique=True] on [User.email]. *)
Definition unique_emails (t : list User) : Prop := NoDup (map email t).

(** ** The state-and-exception monad of the DAO layer *)

Definition DB (A : Type) : Type := Store -> outcome A * Store.

Definition ret {A} (a : A) : DB A := fun st => (Ok a, st).

Definition raise_http {A} (code : Z) (msg : string) : DB A :=
  fun st => (HTTPException code msg, st).

Definition raise_exc {A} (exc : string) : DB A :=
  fun st => (Unhandled exc, st).

Definition bind {A B} (m : DB A) (k : A -> DB B) : DB B :=
  fun st =>
    match m st with
    | (Ok a, st') => k a st'
    | (HTTPException c d, st') => (HTTPException c d, st')
    | (Unhandled e, st') => (Unhandled e, st')
    end.

Notation "x <- m ;; k" := (bind m (fun x => k))
  (at level 61, m at next level, right associativity).

(** [BaseDAO.get_session]: a new session from the factory. *)
Definition get_session : DB unit :=
  fun st => (Ok tt, mkStore (users st) (resumes st) (user_seq st)
                            (resume_seq st) (S (sessions st))).

Definition read_users : DB (list User) := fun st => (Ok (users st), st).
Definition read_resumes : DB (list Resume) := fun st => (Ok (resumes st), st).

Definition write_resumes (t : list Resume) : DB unit :=
  fun st => (Ok tt, mkStore (users st) t (user_seq st) (resume_seq st)
                            (sessions st)).

(** [Result.scalar_one_or_none]: no row gives [None], one row gives it, more
    rows raise [MultipleResultsFound]. *)
Definition scalar_one_or_none {A} (rows : list A) : DB (option A) :=
  match rows with
  | [] => ret None
  | [x] => ret (Some x)
  | _ => raise_exc "MultipleResultsFound"
  end.

(** ** database/crud.py *)

(** [UserDAO.get_user_by_email]:
    [select(User).where(User.email == email)], then [scalar_one_or_none]. *)
Definition get_user_by_email (e : string) : DB (option User) :=
  _ <- get_session ;;
  t <- read_users ;;
  scalar_one_or_none (filter (fun u => String.eqb (email u) e) t).

(** [BaseDAO.add] at [User], through [UserDAO.create_user]: the row gets the
    next value of the sequence; a second row with the same e-mail violates
    the unique constraint, the transaction is rolled back and
    [IntegrityError] propagates. The sequence value the rejected INSERT drew
    is not given back. *)
Definition create_user (e : string) (hashed : string) : DB User :=
  _ <- get_session ;;
  fun st =>
    if existsb (fun u => String.eqb (email u) e) (users st)
    then (Unhandled "IntegrityError",
          mkStore (users st) (resumes st) (user_seq st + 1) (resume_seq st)
                  (sessions st))
    else
      let obj := mkUser (user_seq st) e hashed in
      (Ok obj, mkStore (users st ++ [obj]) (resumes st) (user_seq st + 1)
                       (resume_seq st) (sessions st)).

(** [ResumeDAO.get_all_by_user]: [select(Resume).where(Resume.user_id == user_id)]. *)
Definition get_all_by_user (uid : Z) : DB (list Resume) :=
  _ <- get_session ;;
  t <- read_resumes ;;
  ret (filter (fun r => user_id r =? uid) t).

(** The compound filter of the three owner-scoped methods:
    [select(Resume).where(Resume.id == res_id, Resume.user_id == user_id)]. *)
Definition owned_by (res_id uid : Z) (r : Resume) : bool :=
  (id r =? res_id) && (user_id r =? uid).

(** [ResumeDAO.get_by_id_for_user]. *)
Definition get_by_id_for_user (res_id uid : Z) : DB (option Resume) :=
  _ <- get_session ;;
  t <- read_resumes ;;
  scalar_one_or_none (filter (owned_by res_id uid) t).

(** [BaseDAO.add] at [Resume], through [ResumeDAO.add_for_user]: the row
    gets the next value of the sequence. [user_id] is declared
    [ForeignKey("user.id")]: for an owner id that no user row has the INSERT
    is rejected, the transaction is rolled back and [IntegrityError]
    propagates; the sequence value it drew is not given back. *)
Definition add_for_user (uid : Z) (ttl cnt : string) : DB Resume :=
  _ <- get_session ;;
  fun st =>
    if existsb (fun u => user_id_of u =? uid) (users st)
    then
      let obj := mkResume (resume_seq st) ttl cnt uid in
      (Ok obj, mkStore (users st) (resumes st ++ [obj]) (user_seq st)
                       (resume_seq st + 1) (sessions st))
    else (Unhandled "IntegrityError",
          mkStore (users st) (resumes st) (user_seq st) (resume_seq st + 1)
                  (sessions st)).

(** [hasattr(obj, k)] for a [Resume]: the mapped attributes of the model. *)
Definition hasattr (k : string) : bool :=
  existsb (String.eqb k) ["id"; "title"; "content"; "user_id"; "user"].

(** [setattr(obj, k, v)] with a [str] value, as [update_for_user] receives
    them from [update_resume]. The two text columns take the value; a [str]
    assigned to [id], [user_id] or the relationship [user] is refused by the
    mapper or at flush, which [None] stands for. *)
Definition setattr (obj : Resume) (k v : string) : option Resume :=
  if String.eqb k "title" then
    Some (mkResume (id obj) v (content obj) (user_id obj))
  else if String.eqb k "content" then
    Some (mkResume (id obj) (title obj) v (user_id obj))
  else None.

(** The loop [for k, v in fields.items(): if hasattr(obj, k): setattr(obj, k, v)]. *)
Fixpoint set_fields (obj : Resume) (fields : list (string * string))
  : option Resume :=
  match fields with
  | [] => Some obj
  | (k, v) :: rest =>
      if hasattr k then
        match setattr obj k v with
        | Some obj' => set_fields obj' rest
        | None => None
        end
      else set_fields obj rest
  end.

(** The [UPDATE resume SET ... WHERE resume.id = :pk] the session flushes for
    a modified object at commit. *)
Definition flush_update (obj : Resume) (t : list Resume) : list Resume :=
  map (fun r => if id r =? id obj then obj else r) t.

(** The [DELETE FROM resume WHERE resume.id = :pk] of [session.delete(obj)]. *)
Definition flush_delete (obj : Resume) (t : list Resume) : list Resume :=
  filter (fun r => negb (id r =? id obj)) t.

(** [ResumeDAO.update_for_user]. *)
Definition update_for_user (res_id uid : Z) (fields : list (string * string))
  : DB (option Resume) :=
  _ <- get_session ;;
  t <- read_resumes ;;
  o <- scalar_one_or_none (filter (owned_by res_id uid) t) ;;
  match o with
  | None => ret None
  | Some obj =>
      match set_fields obj fields with
      | None => raise_exc "StatementError"
      | Some obj' =>
          _ <- write_resumes (flush_update obj' t) ;;
          ret (Some obj')
      end
  end.

(** [ResumeDAO.delete_for_user]. *)
Definition delete_for_user (res_id uid : Z) : DB (option Resume) :=
  _ <- get_session ;;
  t <- read_resumes ;;
  o <- scalar_one_or_none (filter (owned_by res_id uid) t) ;;
  match o with
  | None => ret None
  | Some obj =>
      _ <- write_resumes (flush_delete obj t) ;;
      ret (Some obj)
  end.

(** ** python-jose, as [services/auth_service.py] uses it *)

(** The claims set of a token: the three claims [create_access_token]
    writes, each optional on the wire and each at the JSON type jose
    requires of it ([sub] a string, [iat] and [exp] integers). *)
Record Claims : Type := mkClaims {
  sub : option string;
  iat : option Z;
  exp : option Z
}.

(** A JWS in compact serialization: protected header ([alg]), payload and
    signature. *)
Record JWS : Type := mkJWS {
  jws_alg : string;
  jws_claims : Claims;
  jws_signature : string
}.

(** The bearer string [get_current_user] receives: either the compact
    serialization of a JWS, or any other string (the empty one included). *)
Inductive token : Type :=
| Raw (s : string)
| Compact (j : JWS).

Inductive JWTError : Type :=
| NotEnoughSegments
| AlgNotAllowed
| SignatureVerificationFailed
| ExpiredSignatureError.

(** [int(dt.timestamp())]: whole seconds, truncated toward zero. (The float
    [timestamp()] returns is the double nearest to the exact value, which
    truncates to the same integer for every instant before the year 2514.) *)
Definition int_timestamp (dt : Z) : Z := Z.quot dt 1000000.

(** [timegm(datetime.now(UTC).utctimetuple())]: the time tuple has no
    microseconds, so this is the floor of the instant in seconds. *)
Definition timegm_now (now : Z) : Z := now / 1000000.

(** [timedelta(minutes=m)] in microseconds. *)
Definition timedelta_minutes (m : Z) : Z := m * 60000000.

(** [datetime.min] and [datetime.max] in UTC: 0001-01-01T00:00:00 and
    9999-12-31T23:59:59.999999. *)
Definition datetime_min : Z := -62135596800000000.
Definition datetime_max : Z := 253402300799999999.

(** The instants a [datetime] can hold. *)
Definition is_datetime (dt : Z) : bool :=
  (datetime_min <=? dt) && (dt <=? datetime_max).

(** ** api/schemas.py *)

Record Token : Type := mkToken {
  access_token : token;
  token_type : string;
  expires_at : Z
}.

Record UserRegistration : Type := mkUserRegistration {
  reg_email : string;
  reg_password : string
}.

Record UserLogin : Type := mkUserLogin {
  login_email : string;
  login_password : string
}.

Record ResumeCreate : Type := mkResumeCreate {
  new_title : string;
  new_content : string
}.

(** [ResumeUpdate]: both fields default to [None]. *)
Record ResumeUpdate : Type := mkResumeUpdate {
  upd_title : option string;
  upd_content : option string
}.

Record ResumeOut : Type := mkResumeOut {
  out_id : Z;
  out_title : string;
  out_content : string
}.

(** [response_model=ResumeOut] with [from_attributes=True]: the response
    reads [id], [title] and [content] off the returned object. *)
Definition ResumeOut_of (r : Resume) : ResumeOut :=
  mkResumeOut (id r) (title r) (content r).

(** ** settings/config.py *)

Record JWTSettings : Type := mkJWTSettings {
  JWT_SECRET : string;
  JWT_ALG : string;
  ACCESS_TOKEN_EXPIRE_MIN : Z
}.

Section App.

(** The process configuration, read once from [.env.jwt]. *)
Variable jwtsettings : JWTSettings.

(** The signature jose computes over header and payload under a key, for
    an algorithm it supports. *)
Variable jws_sign : string -> string -> Claims -> string.

(** [pwd_context.hash] under a given salt, and [pwd_context.verify]. Both
    raise for inputs passlib refuses (a password with a NUL byte or over its
    size limit, a stored string that is no hash): that is [None]. *)
Variable bcrypt_hash : string -> string -> option string.
Variable bcrypt_verify : string -> string -> option bool.

(** [jwt.encode(claims, key, algorithm=alg)]. *)
Definition jwt_encode (claims : Claims) (key alg : string) : token :=
  Compact (mkJWS alg claims (jws_sign key alg claims)).

(** [jwt.decode(token, key, algorithms=algs)] at the instant [now]: the
    token is split, the header's [alg] must be among [algs], the signature
    must verify, and then jose's [_validate_exp] runs
    [if exp < (now - leeway): raise ExpiredSignatureError] with [now] in
    whole seconds and the default leeway of 0. *)
Definition jwt_decode (now : Z) (tok : token) (key : string)
  (algs : list string) : JWTError + Claims :=
  match tok with
  | Raw _ => inl NotEnoughSegments
  | Compact j =>
      if negb (existsb (String.eqb (jws_alg j)) algs) then inl AlgNotAllowed
      else if negb (String.eqb (jws_signature j)
                               (jws_sign key (jws_alg j) (jws_claims j)))
      then inl SignatureVerificationFailed
      else
        match exp (jws_claims j) with
        | Some e =>
            if e <? timegm_now now then inl ExpiredSignatureError
            else inr (jws_claims j)
        | None => inr (jws_claims j)
        end
  end.

(** ** services/auth_service.py *)

Definition hash_password (salt raw : string) : DB string :=
  match bcrypt_hash salt raw with
  | Some hashed => ret hashed
  | None => raise_exc "ValueError"
  end.

Definition verify_password (raw hashed : string) : DB bool :=
  match bcrypt_verify raw hashed with
  | Some ok => ret ok
  | None => raise_exc "ValueError"
  end.

(** [create_access_token(sub, expires_minutes)], with [now] the reading of
    [datetime.now(timezone.utc)]: the token the function returns when it
    returns one, that is when [expire] is an instant a [datetime] can hold
    (see [call_create_access_token]). *)
Definition create_access_token (now : Z) (s : string) (expires_minutes : Z)
  : Token :=
  let expire := now + timedelta_minutes expires_minutes in
  let payload := mkClaims (Some s) (Some (int_timestamp now))
                          (Some (int_timestamp expire)) in
  mkToken (jwt_encode payload (JWT_SECRET jwtsettings) (JWT_ALG jwtsettings))
          "bearer" expire.

(** A call of [create_access_token]: [now + timedelta(minutes=...)] raises
    [OverflowError] when the sum is outside the range of [datetime];
    otherwise the call returns the token above. *)
Definition call_create_access_token (now : Z) (s : string)
  (expires_minutes : Z) : DB Token :=
  if is_datetime now && is_datetime (now + timedelta_minutes expires_minutes)
  then ret (create_access_token now s expires_minutes)
  else raise_exc "OverflowError".

(** Python's [not token] on a string. *)
Definition token_is_empty (tok : token) : bool :=
  match tok with
  | Raw "" => true
  | _ => false
  end.

(** [get_current_user(token)], with [now] the clock jose reads while
    decoding. The [HTTPException]s raised inside the [try] are not
    [JWTError]s and pass through the [except] clause. *)
Definition get_current_user (now : Z) (tok : token) : DB User :=
  if token_is_empty tok then raise_http 401 "Missing token"
  else
    match jwt_decode now tok (JWT_SECRET jwtsettings) [JWT_ALG jwtsettings] with
    | inl _ => raise_http 401 "Invalid or expired token"
    | inr payload =>
        match sub payload with
        | None => raise_http 401 "Invalid token"
        | Some "" => raise_http 401 "Invalid token"
        | Some s =>
            user <- get_user_by_email s ;;
            match user with
            | None => raise_http 401 "User not found"
            | Some u => ret u
            end
        end
    end.

(** ** api/routers.py *)

(** [register(body)]; [salt] is the salt bcrypt draws while hashing. *)
Definition register (now : Z) (salt : string) (body : UserRegistration)
  : DB Token :=
  existing <- get_user_by_email (reg_email body) ;;
  match existing with
  | Some _ =>
      raise_http 400 "Пользователь с таким email уже существует"
  | None =>
      hashed <- hash_password salt (reg_password body) ;;
      _ <- create_user (reg_email body) hashed ;;
      call_create_access_token now (reg_email body)
                               (ACCESS_TOKEN_EXPIRE_MIN jwtsettings)
  end.

(** [login(body)]: [not user or not verify_password(...)] evaluates the
    password check only when a user was found. *)
Definition login (now : Z) (body : UserLogin) : DB Token :=
  user <- get_user_by_email (login_email body) ;;
  match user with
  | None => raise_http 401 "Неверные учетные данные"
  | Some u =>
      ok <- verify_password (login_password body) (hashed_password u) ;;
      if negb ok
      then raise_http 401 "Неверные учетные данные"
      else call_create_access_token now (login_email body)
                                    (ACCESS_TOKEN_EXPIRE_MIN jwtsettings)
  end.

(** [list_resumes(current_user)]. *)
Definition list_resumes (current_user : User) : DB (list ResumeOut) :=
  items <- get_all_by_user (user_id_of current_user) ;;
  ret (map ResumeOut_of items).

(** [create_resume(body, current_user)]. *)
Definition create_resume (body : ResumeCreate) (current_user : User)
  : DB ResumeOut :=
  item <- add_for_user (user_id_of current_user) (new_title body)
                       (new_content body) ;;
  ret (ResumeOut_of item).

(** [get_resume(res_id, current_user)]. *)
Definition get_resume (res_id : Z) (current_user : User) : DB ResumeOut :=
  item <- get_by_id_for_user res_id (user_id_of current_user) ;;
  match item with
  | None => raise_http 404 "Resume not found"
  | Some r => ret (ResumeOut_of r)
  end.

(** Values and dictionaries as [improve_resume] builds them. *)
Inductive pyval : Type :=
| PyInt (z : Z)
| PyStr (s : string).

Definition pydict : Type := list (string * pyval).

Fixpoint dict_get (d : pydict) (k : string) : option pyval :=
  match d with
  | [] => None
  | (k', v) :: rest => if String.eqb k' k then Some v else dict_get rest k
  end.

Fixpoint dict_set (d : pydict) (k : string) (v : pyval) : pydict :=
  match d with
  | [] => [(k, v)]
  | (k', v') :: rest =>
      if String.eqb k' k then (k', v) :: rest else (k', v') :: dict_set rest k v
  end.

(** [str(v)], as an f-string formats a value. *)
Definition py_str (v : pyval) : string :=
  match v with
  | PyInt z => NilZero.string_of_int (Z.to_int z)
  | PyStr s => s
  end.

(** [database/models/base.py], which declares [Base], is not among the
    sources. The one thing a handler asks of it beyond the mapped attributes
    is the mapping protocol ([keys] and [__getitem__] for [**item], and
    [get]), so that is the parameter: [None] is SQLAlchemy's declarative
    base as it comes, whose instances are read through attributes only (the
    reason [ResumeOut] sets [from_attributes]); [Some items] is a [Base]
    that makes an instance a mapping with these items. *)
Variable instance_mapping : option (Resume -> pydict).

(** [**item] inside a dict display: the operand must be a mapping, and
    Python raises [TypeError] when it is not. *)
Definition unpack_mapping (item : Resume) : DB pydict :=
  match instance_mapping with
  | Some items => ret (items item)
  | None => raise_exc "TypeError"
  end.

(** [item.get(k, default)]. *)
Definition item_get (item : Resume) (k : string) (default : pyval)
  : DB pyval :=
  match instance_mapping with
  | Some items =>
      ret (match dict_get (items item) k with Some v => v | None => default end)
  | None => raise_exc "AttributeError"
  end.

(** Validation of a returned dict against [response_model=ResumeOut]. *)
Definition ResumeOut_validate (d : pydict) : DB ResumeOut :=
  match dict_get d "id", dict_get d "title", dict_get d "content" with
  | Some (PyInt i), Some (PyStr t), Some (PyStr c) => ret (mkResumeOut i t c)
  | _, _, _ => raise_exc "ResponseValidationError"
  end.

(** [improve_resume(res_id, current_user)]: the dict display
    [{**item, "content": f"{item.get('content', '')} [Improved]"}] is
    evaluated left to right, [item] being the [Resume] instance that
    [get_by_id_for_user] returned. *)
Definition improve_resume (res_id : Z) (current_user : User) : DB ResumeOut :=
  item <- get_by_id_for_user res_id (user_id_of current_user) ;;
  match item with
  | None => raise_http 404 "Resume not found"
  | Some r =>
      d <- unpack_mapping r ;;
      c <- item_get r "content" (PyStr "") ;;
      ResumeOut_validate
        (dict_set d "content" (PyStr (py_str c ++ " [Improved]")))
  end.

(** [body.dict().items()] of a [ResumeUpdate], in field order. *)
Definition body_items (body : ResumeUpdate) : list (string * option string) :=
  [("title", upd_title body); ("content", upd_content body)].

(** [{k: v for k, v in body.dict().items() if v is not None}]. *)
Definition effective_fields (body : ResumeUpdate) : list (string * string) :=
  flat_map (fun kv => match snd kv with
                      | Some v => [(fst kv, v)]
                      | None => []
                      end) (body_items body).

(** [update_resume(res_id, body, current_user)]. *)
Definition update_resume (res_id : Z) (body : ResumeUpdate)
  (current_user : User) : DB ResumeOut :=
  let data := effective_fields body in
  match data with
  | [] => raise_http 400 "Nothing to update"
  | _ =>
      item <- update_for_user res_id (user_id_of current_user) data ;;
      match item with
      | None => raise_http 404 "Resume not found"
      | Some r => ret (ResumeOut_of r)
      end
  end.

(** [delete_resume(res_id, current_user)]. *)
Definition delete_resume (res_id : Z) (current_user : User) : DB ResumeOut :=
  item <- delete_for_user res_id (user_id_of current_user) ;;
  match item with
  | None => raise_http 404 "Resume not found"
  | Some r => ret (ResumeOut_of r)
  end.

End App.

(** ** database/crud.py: the methods the routers do not call *)

(** The generic methods of [BaseDAO], at [model = Resume]. They address a
    row by its primary key alone. *)
Module BaseDAO.

(** [BaseDAO.get_all_items]: [select(cls.model)]. *)
Definition get_all_items : DB (list Resume) :=
  _ <- get_session ;;
  read_resumes.

(** [BaseDAO.get_item_by_id]: [session.get(cls.model, item_id)], the row
    with that primary key, or [None]. *)
Definition get_item_by_id (item_id : Z) : DB (option Resume) :=
  _ <- get_session ;;
  t <- read_resumes ;;
  ret (find (fun r => id r =? item_id) t).



End BaseDAO.


(** ** settings/loguru_config.py *)

(** What the filters read of a Loguru record: [record["level"].name],
    [record["level"].no] and [record["name"]]. *)
Record LogRecord : Type := mkLogRecord {
  level_name : string;
  level_no : Z;
  logger_name : string
}.

(** [FILES], each path relative to [LOG_DIR]. *)
Definition FILES : list (string * string) :=
  [("DEBUG", "debug.log"); ("INFO", "info.log"); ("WARNING", "warning.log");
   ("ERROR", "error.log"); ("CRITICAL", "critical.log");
   ("ACCESS", "access.log")].

(** [FILES[key]] for a key of the dict. *)
Fixpoint FILES_get (d : list (string * string)) (key : string) : string :=
  match d with
  | [] => ""
  | (k, v) :: rest => if String.eqb k key then v else FILES_get rest key
  end.

(** [exact_level(level_name)]: the filter it returns. *)
Definition exact_level (lvl : string) (record : LogRecord) : bool :=
  String.eqb (level_name record) lvl.

(** [only_uvicorn_access(record)]: [record["name"].startswith("uvicorn.access")]. *)
Definition only_uvicorn_access (record : LogRecord) : bool :=
  String.prefix "uvicorn.access" (logger_name record).

(** A sink as [logger.add(path, level=..., filter=...)] registers it: the
    file, the severity of the [level] argument and the filter. *)
Record Sink : Type := mkSink {
  sink_file : string;
  sink_level : Z;
  sink_filter : LogRecord -> bool
}.

(** The severity Loguru gives the level ["DEBUG"]. *)
Definition DEBUG_no : Z := 10.

(** The sinks the module registers after [logger.remove()]: one per level
    in the loop, then the access log. *)
Definition sinks : list Sink :=
  map (fun lvl => mkSink (FILES_get FILES lvl) DEBUG_no (exact_level lvl))
      ["DEBUG"; "INFO"; "WARNING"; "ERROR"; "CRITICAL"]
  ++ [mkSink (FILES_get FILES "ACCESS") DEBUG_no only_uvicorn_access].

(** The files a record is written to: Loguru hands it to every sink whose
    level it reaches and whose filter accepts it. *)
Definition written_to (record : LogRecord) : list string :=
  map sink_file
      (filter (fun k => (sink_level k <=? level_no record)
                        && sink_filter k record) sinks).

(** ** Auxiliary definitions for the statements *)

(** The store a read-only DAO call leaves: one more session, same tables. *)
Definition after_session (st : Store) : Store :=
  mkStore (users st) (resumes st) (user_seq st) (resume_seq st)
          (S (sessions st)).

(** The row [update_resume] leaves for [r]: each column takes the value
    the body supplies for it, and keeps its own where the body has [None]. *)
Definition updated_row (r : Resume) (body : ResumeUpdate) : Resume :=
  mkResume (id r)
           (match upd_title body with Some v => v | None => title r end)
           (match upd_content body with Some v => v | None => content r end)
           (user_id r).

(** The values an [Integer] column and a bind parameter compared with it can
    take: PostgreSQL's INTEGER is 32 bits wide, and the driver refuses a
    value outside this range with [DataError] before the query runs. The
    DAO methods are modelled on ids in this range. *)
Definition int32 (z : Z) : Prop := -2147483648 <= z <= 2147483647.

(** Whether a string has a NUL byte. PostgreSQL stores no such text and
    refuses it as a column value or a bind parameter, and bcrypt refuses it
    as a password; the DAO methods are modelled on text without one. *)
Fixpoint has_nul (s : string) : bool :=
  match s with
  | EmptyString => false
  | String c rest => Ascii.eqb c Ascii.zero || has_nul rest
  end.

(** The first instant, 2 ^ 34 seconds after the epoch (in the year 2514),
    from which the float of [timestamp()] is too coarse for
    [int_timestamp] to be exact. *)
Definition float_exact_limit : Z := 17179869184000000.

(** A store as the database keeps it: both key constraints hold, and the
    sequences are ahead of every id handed out. *)
Definition store_ok (st : Store) : Prop :=
  pk_unique (resumes st)
  /\ unique_emails (users st)
  /\ NoDup (map user_id_of (users st))
  /\ Forall (fun r => id r < resume_seq st) (resumes st)
  /\ Forall (fun u => user_id_of u < user_seq st) (users st).

Definition empty_store : Store := mkStore [] [] 1 1 0.

(** The items a [Base] with the mapping protocol would expose for a row:
    its columns. *)
Definition column_items (r : Resume) : pydict :=
  [("id", PyInt (id r)); ("title", PyStr (title r));
   ("content", PyStr (content r)); ("user_id", PyInt (user_id r))].

(** ** A small deployment used in the examples *)

Definition demo_settings : JWTSettings := mkJWTSettings "s3cr3t" "HS256" 30.

(** A stand-in for the keyed signature: any function of key, algorithm
    and claims will do for the examples. *)
Definition demo_sign (key alg : string) (c : Claims) : string :=
  key ++ "/" ++ alg ++ "/" ++ match sub c with Some s => s | None => "" end.

(** Stand-ins for bcrypt: they raise on a password with a NUL byte, as
    passlib does, and otherwise hash and compare in the clear. *)
Definition demo_hash (salt raw : string) : option string :=
  if has_nul raw then None else Some ("$2b$" ++ salt ++ raw).

Definition demo_verify (raw hashed : string) : option bool :=
  if has_nul raw then None
  else Some (String.eqb hashed ("$2b$" ++ "salt" ++ raw)).

(** The password [pass<NUL>word]. *)
Definition nul_password : string := "pass" ++ String Ascii.zero "word".

Definition alice : User := mkUser 1 "a@x.com" "$2b$saltpassword123".
Definition bob : User := mkUser 2 "b@x.com" "$2b$salthunter2hunter2".

Definition resume1 : Resume := mkResume 1 "R1" "C1" 1.
Definition resume2 : Resume := mkResume 2 "R2" "C2" 2.
Definition resume3 : Resume := mkResume 3 "R3" "C3" 1.

Definition demo_store : Store :=
  mkStore [alice; bob] [resume1; resume2; resume3] 3 4 0.

(** 2023-11-14T22:13:20.250000Z, in microseconds. *)
Definition demo_now : Z := 1700000000250000.

(** Alice's token, issued at [demo_now] for 30 minutes. *)
Definition alice_token : Token :=
  create_access_token demo_settings demo_sign demo_now "a@x.com" 30.

(** A token whose signature does not verify. *)
Definition forged_token : token :=
  Compact (mkJWS "HS256"
                 (mkClaims (Some "a@x.com") (Some 1700000000) (Some 1700001800))
                 "AAAA").

(** A correctly signed token that carries no [sub] claim. *)
Definition anonymous_token : token :=
  jwt_encode demo_sign (mkClaims None (Some 1700000000) (Some 1700001800))
             "s3cr3t" "HS256".

(** A correctly signed token for a subject nobody registered. *)
Definition ghost_token : token :=
  access_token (create_access_token demo_settings demo_sign demo_now
                                    "ghost@x.com" 30).

(** Discharges a key constraint on a table given by its rows. *)
Ltac concrete_table :=
  unfold pk_unique, unique_emails; simpl;
  repeat constructor; simpl; intuition (lia || discriminate).

(** * Properties *)

(** ** Rows selected by the compound filter *)

Lemma owned_by_true (res_id uid : Z) (r : Resume) :
  owned_by res_id uid r = true <-> id r = res_id /\ user_id r = uid.
Proof.
  unfold owned_by. rewrite andb_true_iff, !Z.eqb_eq. tauto.
Qed.

Lemma filter_owned_absent (t : list Resume) (res_id uid : Z) :
  ~ In res_id (map id t) -> filter (owned_by res_id uid) t = [].
Proof.
  induction t as [|q t IH]; simpl; intros Hni; [reflexivity|].
  unfold owned_by at 1.
  destruct (Z.eqb_spec (id q) res_id) as [E|E]; [tauto|].
  simpl. apply IH. tauto.
Qed.

(** Under the primary-key constraint the compound filter selects the row with
    that id when its owner matches, and nothing otherwise. *)
Lemma filter_owned_row (t : list Resume) (r : Resume) (uid : Z) :
  pk_unique t -> In r t ->
  filter (owned_by (id r) uid) t = if user_id r =? uid then [r] else [].
Proof.
  unfold pk_unique.
  induction t as [|q t IH]; simpl; intros Hnd Hin; [contradiction|].
  inversion Hnd as [|? ? Hq Hnd']; subst.
  destruct Hin as [->|Hin].
  - unfold owned_by at 1. rewrite Z.eqb_refl. simpl.
    rewrite (filter_owned_absent t (id r) uid Hq).
    destruct (user_id r =? uid); reflexivity.
  - unfold owned_by at 1.
    destruct (Z.eqb_spec (id q) (id r)) as [E|E].
    + exfalso. apply Hq. rewrite E. now apply in_map.
    + simpl. now apply IH.
Qed.

Lemma filter_owned_other (t : list Resume) (r : Resume) (uid : Z) :
  pk_unique t -> In r t -> user_id r <> uid ->
  filter (owned_by (id r) uid) t = [].
Proof.
  intros Hpk Hin Hne. rewrite (filter_owned_row t r uid Hpk Hin).
  destruct (Z.eqb_spec (user_id r) uid); [contradiction|reflexivity].
Qed.

Lemma filter_owned_owner (t : list Resume) (r : Resume) :
  pk_unique t -> In r t -> filter (owned_by (id r) (user_id r)) t = [r].
Proof.
  intros Hpk Hin. rewrite (filter_owned_row t r (user_id r) Hpk Hin).
  now rewrite Z.eqb_refl.
Qed.

(** ** Ownership-scoped lookup *)

(** C1: a resume owned by user A is invisible to any other user B: the
    owner-scoped lookup with B's id returns no row, and [get_resume] called
    with B's identity raises 404 "Resume not found" (not the resume, and not
    a 403). *)
Theorem C1_lookup_by_other_user_not_found
  (st : Store) (r : Resume) (A B : User) :
  pk_unique (resumes st) ->
  In r (resumes st) ->
  user_id r = user_id_of A ->
  user_id_of B <> user_id_of A ->
  get_by_id_for_user (id r) (user_id_of B) st = (Ok None, after_session st)
  /\ get_resume (id r) B st
     = (HTTPException 404 "Resume not found", after_session st).
Proof.
  intros Hpk Hin Hown Hne.
  assert (Hsel : filter (owned_by (id r) (user_id_of B)) (resumes st) = []).
  { apply filter_owned_other; auto. congruence. }
  unfold get_resume, get_by_id_for_user, bind, get_session, read_resumes.
  simpl. rewrite Hsel. simpl. split; reflexivity.
Qed.

Lemma C1_lookup_by_other_user_not_found_witness :
  get_by_id_for_user (id resume1) (user_id_of bob) demo_store
  = (Ok None, after_session demo_store)
  /\ get_resume (id resume1) bob demo_store
     = (HTTPException 404 "Resume not found", after_session demo_store).
Proof.
  apply (C1_lookup_by_other_user_not_found demo_store resume1 alice bob).
  - concrete_table.
  - simpl. auto.
  - reflexivity.
  - simpl. lia.
Defined.

(** ** Tokens *)

Section TokenProperties.

Variable cfg : JWTSettings.
Variable sign : string -> string -> Claims -> string.

(** Truncation toward zero is never below the floor. *)
Lemma int_timestamp_ge_floor (dt : Z) : dt / 1000000 <= int_timestamp dt.
Proof.
  unfold int_timestamp.
  pose proof (Z.quot_rem' dt 1000000) as Hq.
  pose proof (Z.div_mod dt 1000000 ltac:(lia)) as Hd.
  pose proof (Z.mod_pos_bound dt 1000000 ltac:(lia)) as Hm.
  pose proof (Z.rem_bound_abs dt 1000000 ltac:(lia)) as Hr.
  lia.
Qed.

Lemma timegm_now_mono (a b : Z) : a <= b -> timegm_now a <= timegm_now b.
Proof. intros H. unfold timegm_now. apply Z.div_le_mono; lia. Qed.

(** Decoding a token this process issued: header and signature are accepted,
    and only the comparison of [exp] with the clock decides. *)
Lemma jwt_decode_issued (now now' : Z) (s : string) (m : Z) :
  jwt_decode sign now' (access_token (create_access_token cfg sign now s m))
             (JWT_SECRET cfg) [JWT_ALG cfg]
  = if int_timestamp (now + timedelta_minutes m) <? timegm_now now'
    then inl ExpiredSignatureError
    else inr (mkClaims (Some s) (Some (int_timestamp now))
                       (Some (int_timestamp (now + timedelta_minutes m)))).
Proof.
  unfold create_access_token, jwt_encode, jwt_decode. simpl.
  rewrite !String.eqb_refl. simpl. reflexivity.
Qed.

Lemma issued_token_not_empty (now : Z) (s : string) (m : Z) :
  token_is_empty (access_token (create_access_token cfg sign now s m)) = false.
Proof. reflexivity. Qed.

(** [get_current_user] on a token whose decoding fails, whatever the reason. *)
Lemma get_current_user_decode_error (now : Z) (tok : token) (e : JWTError)
  (st : Store) :
  token_is_empty tok = false ->
  jwt_decode sign now tok (JWT_SECRET cfg) [JWT_ALG cfg] = inl e ->
  get_current_user cfg sign now tok st
  = (HTTPException 401 "Invalid or expired token", st).
Proof.
  intros Hne Hdec. unfold get_current_user. rewrite Hne, Hdec. reflexivity.
Qed.

End TokenProperties.

(** ** Looking a user up by e-mail *)

Lemma filter_email_absent (t : list User) (e : string) :
  ~ In e (map email t) -> filter (fun u => String.eqb (email u) e) t = [].
Proof.
  induction t as [|v t IH]; simpl; intros Hni; [reflexivity|].
  destruct (String.eqb_spec (email v) e) as [E|E]; [tauto|].
  apply IH. tauto.
Qed.

Lemma filter_email_unique (t : list User) (u : User) :
  unique_emails t -> In u t ->
  filter (fun v => String.eqb (email v) (email u)) t = [u].
Proof.
  unfold unique_emails.
  induction t as [|v t IH]; simpl; intros Hnd Hin; [contradiction|].
  inversion Hnd as [|? ? Hv Hnd']; subst.
  destruct Hin as [->|Hin].
  - rewrite String.eqb_refl. now rewrite (filter_email_absent t (email u) Hv).
  - destruct (String.eqb_spec (email v) (email u)) as [E|E].
    + exfalso. apply Hv. rewrite E. now apply in_map.
    + now apply IH.
Qed.

Lemma get_user_by_email_registered (st : Store) (u : User) :
  unique_emails (users st) -> In u (users st) ->
  get_user_by_email (email u) st = (Ok (Some u), after_session st).
Proof.
  intros Hu Hin. unfold get_user_by_email, bind, get_session, read_users.
  simpl. now rewrite (filter_email_unique (users st) u Hu Hin).
Qed.

Lemma get_user_by_email_unknown (st : Store) (e : string) :
  ~ In e (map email (users st)) ->
  get_user_by_email e st = (Ok None, after_session st).
Proof.
  intros Hni. unfold get_user_by_email, bind, get_session, read_users.
  simpl. now rewrite (filter_email_absent (users st) e Hni).
Qed.

(** A lookup never raises an [HTTPException] by itself. *)
Lemma get_user_by_email_no_http (st st' : Store) (e : string) (c : Z)
  (d : string) :
  get_user_by_email e st <> (HTTPException c d, st').
Proof.
  unfold get_user_by_email, bind, get_session, read_users. simpl.
  destruct (filter (fun u => String.eqb (email u) e) (users st))
    as [|x [|y l]]; simpl; discriminate.
Qed.

(** Every [HTTPException] of [get_current_user] carries status 401. *)
Lemma get_current_user_status (cfg : JWTSettings)
  (sign : string -> string -> Claims -> string) (now : Z) (tok : token)
  (st st' : Store) (c : Z) (d : string) :
  get_current_user cfg sign now tok st = (HTTPException c d, st') -> c = 401.
Proof.
  unfold get_current_user.
  destruct (token_is_empty tok); [intros [= <- _ _]; reflexivity|].
  destruct (jwt_decode sign now tok (JWT_SECRET cfg) [JWT_ALG cfg])
    as [e|payload]; [intros [= <- _ _]; reflexivity|].
  destruct (sub payload) as [[|a s]|];
    try (intros [= <- _ _]; reflexivity).
  unfold bind.
  destruct (get_user_by_email (String a s) st) as [[[u|]|c' d'|x] st1] eqn:E.
  - discriminate.
  - intros [= <- _ _]. reflexivity.
  - exfalso. exact (get_user_by_email_no_http _ _ _ _ _ E).
  - discriminate.
Qed.

(** ** Token expiry *)

(** When [get_current_user] answers "Invalid or expired token" to a token
    this process issued. *)
Lemma issued_token_rejected_iff
  (cfg : JWTSettings) (sign : string -> string -> Claims -> string)
  (st : Store) (now : Z) (s : string) (m : Z) (now' : Z) :
  get_current_user cfg sign now'
    (access_token (create_access_token cfg sign now s m)) st
  = (HTTPException 401 "Invalid or expired token", st)
  <-> int_timestamp (now + timedelta_minutes m) < timegm_now now'.
Proof.
  unfold get_current_user.
  rewrite issued_token_not_empty, jwt_decode_issued.
  destruct (Z.ltb_spec (int_timestamp (now + timedelta_minutes m))
                       (timegm_now now')) as [Hlt|Hge].
  - split; [intros _; exact Hlt | intros _; reflexivity].
  - split; [|lia]. simpl. intros E. exfalso.
    destruct s as [|a s]; [discriminate E|].
    unfold bind in E.
    destruct (get_user_by_email (String a s) st) as [[[u|]|c' d'|x] st1]
      eqn:G; cbv [ret raise_http] in E; try discriminate E.
    exact (get_user_by_email_no_http _ _ _ _ _ G).
Qed.

(** For instants after the epoch, one full second past [expires_at] is
    always late enough. *)
Lemma expired_one_second_later
  (cfg : JWTSettings) (sign : string -> string -> Claims -> string)
  (st : Store) (now : Z) (s : string) (m : Z) (now' : Z) :
  0 <= expires_at (create_access_token cfg sign now s m) ->
  expires_at (create_access_token cfg sign now s m) + 1000000 <= now' ->
  get_current_user cfg sign now'
    (access_token (create_access_token cfg sign now s m)) st
  = (HTTPException 401 "Invalid or expired token", st).
Proof.
  intros H0 Hlate. apply issued_token_rejected_iff.
  revert H0 Hlate.
  change (expires_at (create_access_token cfg sign now s m))
    with (now + timedelta_minutes m).
  generalize (now + timedelta_minutes m). intros e H0 Hlate.
  unfold int_timestamp, timegm_now.
  rewrite Z.quot_div_nonneg by lia.
  apply Z.lt_le_trans with ((e + 1000000) / 1000000).
  - replace (e + 1000000) with (e + 1 * 1000000) by lia.
    rewrite Z.div_add by lia. lia.
  - apply Z.div_le_mono; lia.
Qed.

(** C2 (amended): a token issued by [create_access_token] is rejected as
    expired, with 401 "Invalid or expired token", exactly when the clock read
    at validation, floored to whole seconds, lies strictly after the token's
    [exp], the whole-second truncation of [expires_at]. Validation at the
    [expires_at] instant itself is therefore not rejected. *)
Theorem C2_rejected_iff_clock_second_after_exp
  (cfg : JWTSettings) (sign : string -> string -> Claims -> string)
  (st : Store) (now : Z) (s : string) (m : Z) (now' : Z) :
  get_current_user cfg sign now'
    (access_token (create_access_token cfg sign now s m)) st
  = (HTTPException 401 "Invalid or expired token", st)
  <-> int_timestamp (expires_at (create_access_token cfg sign now s m))
      < timegm_now now'.
Proof.
  exact (issued_token_rejected_iff cfg sign st now s m now').
Qed.

(** C2, as stated, fails: the token issued to a@x.com at [demo_now] for 30
    minutes is still accepted at its [expires_at] instant, and half a second
    after it. *)
Lemma C2_accepted_at_expiry :
  get_current_user demo_settings demo_sign
    (expires_at (create_access_token demo_settings demo_sign demo_now
                                     "a@x.com" 30))
    (access_token (create_access_token demo_settings demo_sign demo_now
                                       "a@x.com" 30))
    demo_store
  = (Ok alice, after_session demo_store)
  /\ get_current_user demo_settings demo_sign
       (expires_at (create_access_token demo_settings demo_sign demo_now
                                        "a@x.com" 30) + 500000)
       (access_token (create_access_token demo_settings demo_sign demo_now
                                          "a@x.com" 30))
       demo_store
     = (Ok alice, after_session demo_store)
  /\ ~ (forall cfg sign st now s m now',
          expires_at (create_access_token cfg sign now s m) <= now' ->
          exists d st',
            get_current_user cfg sign now'
              (access_token (create_access_token cfg sign now s m)) st
            = (HTTPException 401 d, st')).
Proof.
  split; [vm_compute; reflexivity|].
  split; [vm_compute; reflexivity|].
  intros H.
  destruct (H demo_settings demo_sign demo_store demo_now "a@x.com" 30
              (demo_now + timedelta_minutes 30)) as (d & st' & E).
  - simpl. lia.
  - vm_compute in E. discriminate E.
Qed.

(** ** Issue, then validate *)

(** A token this process issued decodes to its own claims at every instant
    up to [expires_at]. *)
Lemma jwt_decode_issued_before_expiry
  (cfg : JWTSettings) (sign : string -> string -> Claims -> string)
  (now : Z) (s : string) (m : Z) (now' : Z) :
  now' <= now + timedelta_minutes m ->
  jwt_decode sign now' (access_token (create_access_token cfg sign now s m))
             (JWT_SECRET cfg) [JWT_ALG cfg]
  = inr (mkClaims (Some s) (Some (int_timestamp now))
                  (Some (int_timestamp (now + timedelta_minutes m)))).
Proof.
  intros Hle. rewrite jwt_decode_issued.
  destruct (Z.ltb_spec (int_timestamp (now + timedelta_minutes m))
                       (timegm_now now')) as [Hlt|Hge]; [|reflexivity].
  exfalso.
  pose proof (int_timestamp_ge_floor (now + timedelta_minutes m)) as Hfl.
  pose proof (timegm_now_mono now' (now + timedelta_minutes m) Hle) as Hmono.
  unfold timegm_now in *. lia.
Qed.

(** C4 (amended): for a non-empty subject [s] that is the e-mail of a
    registered user [u], and a lifetime [m > 0] whose expiry [now + m]
    minutes is still an instant a [datetime] holds (not past the year 9999),
    the call of [create_access_token] returns a token, and that token
    validates at every instant from issuance until [expires_at]: jose's
    decode returns claims whose [sub] is [s], and [get_current_user]
    returns [u]. *)
Theorem C4_issued_token_validates
  (cfg : JWTSettings) (sign : string -> string -> Claims -> string)
  (st : Store) (now : Z) (s : string) (m : Z) (now' : Z) (u : User) :
  0 < m ->
  is_datetime now = true ->
  is_datetime (expires_at (create_access_token cfg sign now s m)) = true ->
  s <> "" ->
  unique_emails (users st) ->
  In u (users st) ->
  email u = s ->
  now <= now' ->
  now' < expires_at (create_access_token cfg sign now s m) ->
  call_create_access_token cfg sign now s m st
  = (Ok (create_access_token cfg sign now s m), st)
  /\ (exists payload,
        jwt_decode sign now'
                   (access_token (create_access_token cfg sign now s m))
                   (JWT_SECRET cfg) [JWT_ALG cfg] = inr payload
        /\ sub payload = Some s)
  /\ get_current_user cfg sign now'
       (access_token (create_access_token cfg sign now s m)) st
     = (Ok u, after_session st).
Proof.
  intros _ Hnow Hexp Hs Huniq Hin He _ Hbefore.
  change (expires_at (create_access_token cfg sign now s m))
    with (now + timedelta_minutes m) in Hbefore, Hexp.
  assert (Hdec := jwt_decode_issued_before_expiry cfg sign now s m now'
                    ltac:(lia)).
  split; [|split].
  - unfold call_create_access_token. now rewrite Hnow, Hexp.
  - eexists. split; [exact Hdec|reflexivity].
  - unfold get_current_user.
    rewrite issued_token_not_empty, Hdec. simpl.
    destruct s as [|a s]; [congruence|].
    unfold bind. rewrite <- He.
    now rewrite (get_user_by_email_registered st u Huniq Hin).
Qed.

Lemma C4_issued_token_validates_witness :
  call_create_access_token demo_settings demo_sign demo_now "a@x.com" 30
                           demo_store
  = (Ok (create_access_token demo_settings demo_sign demo_now "a@x.com" 30),
     demo_store)
  /\ (exists payload,
        jwt_decode demo_sign demo_now
          (access_token (create_access_token demo_settings demo_sign demo_now
                                             "a@x.com" 30))
          (JWT_SECRET demo_settings) [JWT_ALG demo_settings] = inr payload
        /\ sub payload = Some "a@x.com")
  /\ get_current_user demo_settings demo_sign demo_now
       (access_token (create_access_token demo_settings demo_sign demo_now
                                          "a@x.com" 30)) demo_store
     = (Ok alice, after_session demo_store).
Proof.
  apply (C4_issued_token_validates demo_settings demo_sign demo_store
           demo_now "a@x.com" 30 demo_now alice).
  - lia.
  - reflexivity.
  - reflexivity.
  - discriminate.
  - concrete_table.
  - simpl. auto.
  - reflexivity.
  - lia.
  - vm_compute. reflexivity.
Defined.

(** C4, as stated for every subject and every lifetime, fails: a token
    issued for the empty subject is refused by the [if not sub] guard, one
    issued for a subject that is not a registered e-mail is refused after
    the lookup, and for a lifetime that carries the expiry past the year
    9999 no token is issued at all. *)
Lemma C4_empty_or_unknown_subject_rejected :
  call_create_access_token demo_settings demo_sign demo_now "a@x.com"
                           5000000000 demo_store
  = (Unhandled "OverflowError", demo_store)
  /\ get_current_user demo_settings demo_sign demo_now
    (access_token (create_access_token demo_settings demo_sign demo_now
                                       "" 30)) demo_store
  = (HTTPException 401 "Invalid token", demo_store)
  /\ get_current_user demo_settings demo_sign demo_now
       (access_token (create_access_token demo_settings demo_sign demo_now
                                          "ghost@x.com" 30)) demo_store
     = (HTTPException 401 "User not found", after_session demo_store)
  /\ ~ (forall cfg sign st now s m,
          0 < m ->
          exists u st',
            get_current_user cfg sign now
              (access_token (create_access_token cfg sign now s m)) st
            = (Ok u, st') /\ email u = s).
Proof.
  split; [vm_compute; reflexivity|].
  split; [vm_compute; reflexivity|].
  split; [vm_compute; reflexivity|].
  intros H.
  destruct (H demo_settings demo_sign demo_store demo_now "" 30 ltac:(lia))
    as (u & st' & E & _).
  vm_compute in E. discriminate E.
Qed.

(** ** What a failed authentication shows *)

(** C3 (amended): with unique e-mails, and a subject the database accepts
    as text (no NUL byte), every authentication failure of
    [get_current_user] is an [HTTPException] with status 401, and its detail
    is fixed by the cause. The failures jose reports (malformed structure,
    algorithm or signature mismatch, expiry) all give the one response 401
    "Invalid or expired token", whatever the token and the clock. The other
    causes each have a text of their own: "Missing token" for the empty
    token, "Invalid token" for a missing or empty subject claim, "User not
    found" for a subject no stored user has. In every remaining case the
    user with that e-mail is returned. *)
Theorem C3_failure_response_by_cause
  (cfg : JWTSettings) (sign : string -> string -> Claims -> string)
  (now : Z) (tok : token) (st : Store) :
  unique_emails (users st) ->
  (forall payload s,
     jwt_decode sign now tok (JWT_SECRET cfg) [JWT_ALG cfg] = inr payload ->
     sub payload = Some s -> has_nul s = false) ->
  (token_is_empty tok = true ->
     get_current_user cfg sign now tok st
     = (HTTPException 401 "Missing token", st))
  /\ (token_is_empty tok = false ->
      forall e,
        jwt_decode sign now tok (JWT_SECRET cfg) [JWT_ALG cfg] = inl e ->
        get_current_user cfg sign now tok st
        = (HTTPException 401 "Invalid or expired token", st))
  /\ (token_is_empty tok = false ->
      forall payload,
        jwt_decode sign now tok (JWT_SECRET cfg) [JWT_ALG cfg] = inr payload ->
        sub payload = None \/ sub payload = Some "" ->
        get_current_user cfg sign now tok st
        = (HTTPException 401 "Invalid token", st))
  /\ (token_is_empty tok = false ->
      forall payload s,
        jwt_decode sign now tok (JWT_SECRET cfg) [JWT_ALG cfg] = inr payload ->
        sub payload = Some s -> s <> "" ->
        ~ In s (map email (users st)) ->
        get_current_user cfg sign now tok st
        = (HTTPException 401 "User not found", after_session st))
  /\ (token_is_empty tok = false ->
      forall payload u,
        jwt_decode sign now tok (JWT_SECRET cfg) [JWT_ALG cfg] = inr payload ->
        sub payload = Some (email u) -> email u <> "" ->
        In u (users st) ->
        get_current_user cfg sign now tok st = (Ok u, after_session st))
  /\ ((exists u, get_current_user cfg sign now tok st
                 = (Ok u, after_session st))
      \/ (exists d st',
            get_current_user cfg sign now tok st = (HTTPException 401 d, st')
            /\ In d ["Missing token"; "Invalid or expired token";
                     "Invalid token"; "User not found"])).
Proof.
  intros Huniq _.
  assert (Hmissing : token_is_empty tok = true ->
            get_current_user cfg sign now tok st
            = (HTTPException 401 "Missing token", st)).
  { intros E. unfold get_current_user. now rewrite E. }
  assert (Hjwt : token_is_empty tok = false -> forall e,
            jwt_decode sign now tok (JWT_SECRET cfg) [JWT_ALG cfg] = inl e ->
            get_current_user cfg sign now tok st
            = (HTTPException 401 "Invalid or expired token", st)).
  { intros E e D. exact (get_current_user_decode_error cfg sign now tok e st E D). }
  assert (Hsub : token_is_empty tok = false -> forall payload,
            jwt_decode sign now tok (JWT_SECRET cfg) [JWT_ALG cfg]
            = inr payload ->
            sub payload = None \/ sub payload = Some "" ->
            get_current_user cfg sign now tok st
            = (HTTPException 401 "Invalid token", st)).
  { intros E payload D [S|S]; unfold get_current_user; now rewrite E, D, S. }
  assert (Hunknown : token_is_empty tok = false -> forall payload s,
            jwt_decode sign now tok (JWT_SECRET cfg) [JWT_ALG cfg]
            = inr payload ->
            sub payload = Some s -> s <> "" ->
            ~ In s (map email (users st)) ->
            get_current_user cfg sign now tok st
            = (HTTPException 401 "User not found", after_session st)).
  { intros E payload s D S Hs Hni. unfold get_current_user.
    rewrite E, D, S. destruct s as [|a s]; [congruence|].
    unfold bind. now rewrite (get_user_by_email_unknown st _ Hni). }
  assert (Hknown : token_is_empty tok = false -> forall payload u,
            jwt_decode sign now tok (JWT_SECRET cfg) [JWT_ALG cfg]
            = inr payload ->
            sub payload = Some (email u) -> email u <> "" ->
            In u (users st) ->
            get_current_user cfg sign now tok st = (Ok u, after_session st)).
  { intros E payload u D S Hs Hin. unfold get_current_user.
    rewrite E, D, S. destruct (email u) as [|a s] eqn:Eu; [congruence|].
    unfold bind. rewrite <- Eu.
    now rewrite (get_user_by_email_registered st u Huniq Hin). }
  repeat (split; [assumption|]).
  destruct (token_is_empty tok) eqn:E.
  - right. eexists. eexists. split; [now apply Hmissing|]. simpl. auto.
  - destruct (jwt_decode sign now tok (JWT_SECRET cfg) [JWT_ALG cfg])
      as [e|payload] eqn:D.
    + right. eexists. eexists. split; [now apply (Hjwt eq_refl e)|].
      simpl. auto.
    + destruct (sub payload) as [s|] eqn:S.
      * destruct (string_dec s "") as [->|Hs].
        -- right. eexists. eexists.
           split; [apply (Hsub eq_refl payload eq_refl); auto|]. simpl. auto.
        -- destruct (in_dec string_dec s (map email (users st))) as [Hin|Hni].
           ++ apply in_map_iff in Hin. destruct Hin as (u & Eu & Hin).
              left. exists u. subst s.
              now apply (Hknown eq_refl payload u eq_refl).
           ++ right. eexists. eexists.
              split; [now apply (Hunknown eq_refl payload s eq_refl)|].
              simpl. auto.
      * right. eexists. eexists.
        split; [apply (Hsub eq_refl payload eq_refl); auto|]. simpl. auto.
Qed.

Lemma C3_failure_response_by_cause_witness :
  (token_is_empty ghost_token = true ->
     get_current_user demo_settings demo_sign demo_now ghost_token demo_store
     = (HTTPException 401 "Missing token", demo_store))
  /\ (token_is_empty ghost_token = false ->
      forall e,
        jwt_decode demo_sign demo_now ghost_token (JWT_SECRET demo_settings)
                   [JWT_ALG demo_settings] = inl e ->
        get_current_user demo_settings demo_sign demo_now ghost_token
                         demo_store
        = (HTTPException 401 "Invalid or expired token", demo_store))
  /\ (token_is_empty ghost_token = false ->
      forall payload,
        jwt_decode demo_sign demo_now ghost_token (JWT_SECRET demo_settings)
                   [JWT_ALG demo_settings] = inr payload ->
        sub payload = None \/ sub payload = Some "" ->
        get_current_user demo_settings demo_sign demo_now ghost_token
                         demo_store
        = (HTTPException 401 "Invalid token", demo_store))
  /\ (token_is_empty ghost_token = false ->
      forall payload s,
        jwt_decode demo_sign demo_now ghost_token (JWT_SECRET demo_settings)
                   [JWT_ALG demo_settings] = inr payload ->
        sub payload = Some s -> s <> "" ->
        ~ In s (map email (users demo_store)) ->
        get_current_user demo_settings demo_sign demo_now ghost_token
                         demo_store
        = (HTTPException 401 "User not found", after_session demo_store))
  /\ (token_is_empty ghost_token = false ->
      forall payload u,
        jwt_decode demo_sign demo_now ghost_token (JWT_SECRET demo_settings)
                   [JWT_ALG demo_settings] = inr payload ->
        sub payload = Some (email u) -> email u <> "" ->
        In u (users demo_store) ->
        get_current_user demo_settings demo_sign demo_now ghost_token
                         demo_store
        = (Ok u, after_session demo_store))
  /\ ((exists u, get_current_user demo_settings demo_sign demo_now ghost_token
                                  demo_store
                 = (Ok u, after_session demo_store))
      \/ (exists d st',
            get_current_user demo_settings demo_sign demo_now ghost_token
                             demo_store
            = (HTTPException 401 d, st')
            /\ In d ["Missing token"; "Invalid or expired token";
                     "Invalid token"; "User not found"])).
Proof.
  apply (C3_failure_response_by_cause demo_settings demo_sign demo_now
           ghost_token demo_store).
  - concrete_table.
  - intros payload s D S. vm_compute in D. injection D as <-.
    simpl in S. injection S as <-. reflexivity.
Defined.

(** C3, as stated, fails: the four kinds of failure answer with four
    different detail texts, so the response tells them apart. *)
Lemma C3_failure_details_differ :
  get_current_user demo_settings demo_sign demo_now (Raw "") demo_store
  = (HTTPException 401 "Missing token", demo_store)
  /\ get_current_user demo_settings demo_sign demo_now forged_token demo_store
     = (HTTPException 401 "Invalid or expired token", demo_store)
  /\ get_current_user demo_settings demo_sign demo_now anonymous_token
                      demo_store
     = (HTTPException 401 "Invalid token", demo_store)
  /\ get_current_user demo_settings demo_sign demo_now ghost_token demo_store
     = (HTTPException 401 "User not found", after_session demo_store)
  /\ ~ (forall cfg sign st now1 tok1 now2 tok2 c1 d1 st1 c2 d2 st2,
          get_current_user cfg sign now1 tok1 st = (HTTPException c1 d1, st1) ->
          get_current_user cfg sign now2 tok2 st = (HTTPException c2 d2, st2) ->
          (c1, d1) = (c2, d2)).
Proof.
  split; [vm_compute; reflexivity|].
  split; [vm_compute; reflexivity|].
  split; [vm_compute; reflexivity|].
  split; [vm_compute; reflexivity|].
  intros H.
  specialize (H demo_settings demo_sign demo_store demo_now (Raw "")
                demo_now forged_token
                401 "Missing token" demo_store
                401 "Invalid or expired token" demo_store
                ltac:(vm_compute; reflexivity) ltac:(vm_compute; reflexivity)).
  discriminate H.
Qed.

(** ** The improve endpoint *)

(** C5: what the code does for a resume [r] of the caller when [Base] is the
    plain declarative base: the lookup finds [r], and the dict display
    raises [TypeError] at [**item], so no view of [r] with the suffix
    " [Improved]" is returned. Both tables are left as they were. *)
Theorem C5_improve_raises_on_owned_resume
  (st : Store) (r : Resume) (U : User) :
  pk_unique (resumes st) ->
  In r (resumes st) ->
  user_id r = user_id_of U ->
  improve_resume None (id r) U st = (Unhandled "TypeError", after_session st)
  /\ resumes (snd (improve_resume None (id r) U st)) = resumes st
  /\ users (snd (improve_resume None (id r) U st)) = users st.
Proof.
  intros Hpk Hin Hown.
  assert (E : improve_resume None (id r) U st
              = (Unhandled "TypeError", after_session st)).
  { unfold improve_resume, get_by_id_for_user, bind, get_session,
      read_resumes. simpl.
    rewrite <- Hown, (filter_owned_owner (resumes st) r Hpk Hin).
    reflexivity. }
  rewrite E. repeat split.
Qed.

Lemma C5_improve_raises_on_owned_resume_witness :
  improve_resume None (id resume1) alice demo_store
  = (Unhandled "TypeError", after_session demo_store)
  /\ resumes (snd (improve_resume None (id resume1) alice demo_store))
     = resumes demo_store
  /\ users (snd (improve_resume None (id resume1) alice demo_store))
     = users demo_store.
Proof.
  apply (C5_improve_raises_on_owned_resume demo_store resume1 alice).
  - concrete_table.
  - simpl. auto.
  - reflexivity.
Defined.

(** What the endpoint was written for: were the instance a mapping over its
    columns, the response would be [r] with the suffix appended to its
    content, and the tables would be left as they were. *)
Lemma improve_resume_over_mapping (st : Store) (r : Resume) (U : User) :
  pk_unique (resumes st) ->
  In r (resumes st) ->
  user_id r = user_id_of U ->
  improve_resume (Some column_items) (id r) U st
  = (Ok (mkResumeOut (id r) (title r) (content r ++ " [Improved]")),
     after_session st).
Proof.
  intros Hpk Hin Hown.
  unfold improve_resume, get_by_id_for_user, bind, get_session, read_resumes.
  simpl.
  rewrite <- Hown, (filter_owned_owner (resumes st) r Hpk Hin).
  reflexivity.
Qed.

(** ** Updates *)

Lemma effective_fields_nil (body : ResumeUpdate) :
  effective_fields body = [] <->
  upd_title body = None /\ upd_content body = None.
Proof.
  destruct body as [[t|] [c|]]; unfold effective_fields; simpl;
    split; intros H; try discriminate H; try (destruct H; discriminate);
    auto.
Qed.

(** C6: an update whose body has no effective field (title and content both
    absent or null) raises 400 "Nothing to update" and leaves the store
    exactly as it was, the session count included: no DAO method is entered
    and no row is modified. *)
Theorem C6_empty_update_rejected_before_storage
  (res_id : Z) (body : ResumeUpdate) (U : User) (st : Store) :
  upd_title body = None ->
  upd_content body = None ->
  update_resume res_id body U st
  = (HTTPException 400 "Nothing to update", st).
Proof.
  intros Ht Hc. unfold update_resume.
  assert (E : effective_fields body = [])
    by (apply effective_fields_nil; split; assumption).
  rewrite E. reflexivity.
Qed.

Lemma C6_empty_update_rejected_before_storage_witness :
  update_resume 1 (mkResumeUpdate None None) alice demo_store
  = (HTTPException 400 "Nothing to update", demo_store).
Proof.
  apply (C6_empty_update_rejected_before_storage 1 (mkResumeUpdate None None)
           alice demo_store); reflexivity.
Defined.

(** Rows of a table with a primary key are determined by their id. *)
Lemma pk_unique_row (t : list Resume) (q r : Resume) :
  pk_unique t -> In q t -> In r t -> id q = id r -> q = r.
Proof.
  unfold pk_unique.
  induction t as [|x t IH]; simpl; intros Hnd Hq Hr E; [contradiction|].
  inversion Hnd as [|? ? Hx Hnd']; subst.
  destruct Hq as [->|Hq], Hr as [->|Hr]; auto.
  - exfalso. apply Hx. rewrite E. now apply in_map.
  - exfalso. apply Hx. rewrite <- E. now apply in_map.
Qed.

(** The [setattr] loop over the effective fields of a body. *)
Lemma set_fields_effective (r : Resume) (body : ResumeUpdate) :
  set_fields r (effective_fields body) = Some (updated_row r body).
Proof.
  destruct r as [i t c u], body as [[t'|] [c'|]]; reflexivity.
Qed.




(** ** Deletion *)

Lemma in_flush_delete (obj : Resume) (t : list Resume) (q : Resume) :
  In q (flush_delete obj t) <-> In q t /\ id q <> id obj.
Proof.
  unfold flush_delete. rewrite filter_In.
  destruct (Z.eqb_spec (id q) (id obj)); simpl; intuition congruence.
Qed.

Lemma flush_delete_id_absent (obj : Resume) (t : list Resume) :
  ~ In (id obj) (map id (flush_delete obj t)).
Proof.
  rewrite in_map_iff. intros (q & E & Hq).
  apply in_flush_delete in Hq. tauto.
Qed.

(** C10: a delete of resume [r] by its owner returns [r]'s id, title and
    content and removes that row and no other: afterwards the owner-scoped
    lookup of [r] finds nothing, every other row is still there as it was,
    and the user table is untouched. *)
Theorem C10_delete_removes_exactly_that_resume
  (st : Store) (r : Resume) (U : User) :
  pk_unique (resumes st) ->
  In r (resumes st) ->
  user_id r = user_id_of U ->
  exists st',
    delete_resume (id r) U st
    = (Ok (mkResumeOut (id r) (title r) (content r)), st')
    /\ users st' = users st
    /\ resumes st' = filter (fun q => negb (id q =? id r)) (resumes st)
    /\ (forall q, In q (resumes st') <-> In q (resumes st) /\ q <> r)
    /\ get_by_id_for_user (id r) (user_id_of U) st'
       = (Ok None, after_session st').
Proof.
  intros Hpk Hin Hown.
  exists (mkStore (users st) (flush_delete r (resumes st))
                  (user_seq st) (resume_seq st) (S (sessions st))).
  split; [|split; [reflexivity|split; [reflexivity|split]]].
  - unfold delete_resume, delete_for_user, bind, get_session, read_resumes.
    simpl.
    rewrite <- Hown, (filter_owned_owner (resumes st) r Hpk Hin).
    reflexivity.
  - intros q. simpl. rewrite in_flush_delete. split.
    + intros [Hq Hne]. split; [assumption|]. intros ->. now apply Hne.
    + intros [Hq Hne]. split; [assumption|]. intros E. apply Hne.
      exact (pk_unique_row (resumes st) q r Hpk Hq Hin E).
  - unfold get_by_id_for_user, bind, get_session, read_resumes. simpl.
    rewrite (filter_owned_absent _ _ _ (flush_delete_id_absent r (resumes st))).
    reflexivity.
Qed.

Lemma C10_delete_removes_exactly_that_resume_witness :
  exists st',
    delete_resume (id resume1) alice demo_store
    = (Ok (mkResumeOut (id resume1) (title resume1) (content resume1)), st')
    /\ users st' = users demo_store
    /\ resumes st'
       = filter (fun q => negb (id q =? id resume1)) (resumes demo_store)
    /\ (forall q, In q (resumes st') <->
                  In q (resumes demo_store) /\ q <> resume1)
    /\ get_by_id_for_user (id resume1) (user_id_of alice) st'
       = (Ok None, after_session st').
Proof.
  apply (C10_delete_removes_exactly_that_resume demo_store resume1 alice).
  - concrete_table.
  - simpl. auto.
  - reflexivity.
Defined.

(** ** Registration and login *)

(** C8: registering an e-mail that a user [u] already holds raises 400
    (duplicate e-mail) before anything is hashed or written: the user table
    is the one from before, so no record was added and [u], with its e-mail
    and password hash, is still in it. *)
Theorem C8_duplicate_registration_rejected
  (cfg : JWTSettings) (sign : string -> string -> Claims -> string)
  (hash : string -> string -> option string)
  (st : Store) (now : Z) (salt : string) (body : UserRegistration)
  (u : User) :
  unique_emails (users st) ->
  In u (users st) ->
  email u = reg_email body ->
  register cfg sign hash now salt body st
  = (HTTPException 400 "Пользователь с таким email уже существует",
     after_session st)
  /\ users (snd (register cfg sign hash now salt body st)) = users st
  /\ In u (users (snd (register cfg sign hash now salt body st))).
Proof.
  intros Huniq Hin He.
  assert (E : register cfg sign hash now salt body st
              = (HTTPException 400 "Пользователь с таким email уже существует",
                 after_session st)).
  { unfold register, bind. rewrite <- He.
    now rewrite (get_user_by_email_registered st u Huniq Hin). }
  rewrite E. simpl. auto.
Qed.

Lemma C8_duplicate_registration_rejected_witness :
  register demo_settings demo_sign demo_hash demo_now "pepper"
           (mkUserRegistration "a@x.com" "another-password") demo_store
  = (HTTPException 400 "Пользователь с таким email уже существует",
     after_session demo_store)
  /\ users (snd (register demo_settings demo_sign demo_hash demo_now "pepper"
                          (mkUserRegistration "a@x.com" "another-password")
                          demo_store))
     = users demo_store
  /\ In alice
        (users (snd (register demo_settings demo_sign demo_hash demo_now
                              "pepper"
                              (mkUserRegistration "a@x.com" "another-password")
                              demo_store))).
Proof.
  apply (C8_duplicate_registration_rejected demo_settings demo_sign demo_hash
           demo_store demo_now "pepper"
           (mkUserRegistration "a@x.com" "another-password") alice).
  - concrete_table.
  - simpl. auto.
  - reflexivity.
Defined.

Lemma existsb_email_absent (t : list User) (e : string) :
  ~ In e (map email t) -> existsb (fun u => String.eqb (email u) e) t = false.
Proof.
  induction t as [|v t IH]; simpl; intros Hni; [reflexivity|].
  destruct (String.eqb_spec (email v) e) as [E|E]; [tauto|].
  apply IH. tauto.
Qed.

Lemma NoDup_snoc {A} (l : list A) (x : A) :
  NoDup l -> ~ In x l -> NoDup (l ++ [x]).
Proof.
  induction l as [|y l IH]; simpl; intros Hnd Hni.
  - constructor; [simpl; tauto|constructor].
  - inversion Hnd as [|? ? Hy Hl]; subst. constructor.
    + rewrite in_app_iff. simpl. intros [H|[H|[]]]; [tauto|].
      apply Hni. left. congruence.
    + apply IH; [assumption|tauto].
Qed.

Lemma unique_emails_snoc (t : list User) (u : User) :
  unique_emails t -> ~ In (email u) (map email t) -> unique_emails (t ++ [u]).
Proof.
  unfold unique_emails. intros Hnd Hni. rewrite map_app.
  now apply NoDup_snoc.
Qed.

(** A registration that goes through: the e-mail is fresh, bcrypt accepts
    the password and the expiry is an instant a [datetime] holds. *)
Lemma register_fresh
  (cfg : JWTSettings) (sign : string -> string -> Claims -> string)
  (hash : string -> string -> option string)
  (st : Store) (now : Z) (salt e p h : string) :
  ~ In e (map email (users st)) ->
  hash salt p = Some h ->
  is_datetime now = true ->
  is_datetime (now + timedelta_minutes (ACCESS_TOKEN_EXPIRE_MIN cfg)) = true ->
  register cfg sign hash now salt (mkUserRegistration e p) st
  = (Ok (create_access_token cfg sign now e (ACCESS_TOKEN_EXPIRE_MIN cfg)),
     mkStore (users st ++ [mkUser (user_seq st) e h]) (resumes st)
             (user_seq st + 1) (resume_seq st) (S (S (sessions st)))).
Proof.
  intros Hfresh Hhash Hnow Hexp.
  unfold register, bind. simpl.
  rewrite (get_user_by_email_unknown st e Hfresh).
  unfold hash_password. rewrite Hhash.
  unfold create_user, bind, get_session, ret. simpl.
  rewrite (existsb_email_absent (users st) e Hfresh).
  unfold call_create_access_token. rewrite Hnow, Hexp. reflexivity.
Qed.

(** The scenario in full: a first registration of a fresh e-mail succeeds
    and stores the credential; a second one with the same e-mail, whatever
    its password, is refused and the stored credential stays. *)
Lemma register_twice
  (cfg : JWTSettings) (sign : string -> string -> Claims -> string)
  (hash : string -> string -> option string)
  (st : Store) (now1 now2 : Z) (salt1 salt2 e p1 p2 h : string) :
  unique_emails (users st) ->
  ~ In e (map email (users st)) ->
  hash salt1 p1 = Some h ->
  is_datetime now1 = true ->
  is_datetime (now1 + timedelta_minutes (ACCESS_TOKEN_EXPIRE_MIN cfg)) = true ->
  exists st1,
    register cfg sign hash now1 salt1 (mkUserRegistration e p1) st
    = (Ok (create_access_token cfg sign now1 e (ACCESS_TOKEN_EXPIRE_MIN cfg)),
       st1)
    /\ users st1 = (users st ++ [mkUser (user_seq st) e h])%list
    /\ register cfg sign hash now2 salt2 (mkUserRegistration e p2) st1
       = (HTTPException 400 "Пользователь с таким email уже существует",
          after_session st1).
Proof.
  intros Huniq Hfresh Hhash Hnow Hexp.
  set (u := mkUser (user_seq st) e h).
  exists (mkStore (users st ++ [u]) (resumes st) (user_seq st + 1)
                  (resume_seq st) (S (S (sessions st)))).
  split; [|split].
  - now apply register_fresh.
  - reflexivity.
  - unfold register, bind. simpl reg_email.
    change e with (email u) at 1.
    rewrite get_user_by_email_registered; [reflexivity| |].
    + simpl. apply unique_emails_snoc; assumption.
    + simpl. apply in_or_app. right. simpl. auto.
Qed.

(** When the password check returns [False], a login with a registered
    e-mail ends exactly as a login with an unknown one. *)
Lemma login_failures_alike_when_verify_returns
  (cfg : JWTSettings) (sign : string -> string -> Claims -> string)
  (verify : string -> string -> option bool)
  (st : Store) (now1 now2 : Z) (b1 b2 : UserLogin) (u : User) :
  ~ In (login_email b1) (map email (users st)) ->
  unique_emails (users st) ->
  In u (users st) ->
  email u = login_email b2 ->
  verify (login_password b2) (hashed_password u) = Some false ->
  login cfg sign verify now1 b1 st = login cfg sign verify now2 b2 st
  /\ login cfg sign verify now1 b1 st
     = (HTTPException 401 "Неверные учетные данные", after_session st).
Proof.
  intros Hunknown Huniq Hin He Hwrong.
  assert (E1 : login cfg sign verify now1 b1 st
               = (HTTPException 401 "Неверные учетные данные",
                  after_session st)).
  { unfold login, bind.
    now rewrite (get_user_by_email_unknown st (login_email b1) Hunknown). }
  assert (E2 : login cfg sign verify now2 b2 st
               = (HTTPException 401 "Неверные учетные данные",
                  after_session st)).
  { unfold login, bind. rewrite <- He.
    rewrite (get_user_by_email_registered st u Huniq Hin).
    unfold verify_password. now rewrite Hwrong. }
  rewrite E1, E2. split; reflexivity.
Qed.

(** C9: what the code does where the claim fails. A login with an
    unregistered e-mail is answered 401 with the one detail text; a login
    with a registered e-mail and a password on which [pwd_context.verify]
    raises is not: the exception leaves [login] unhandled and the request
    ends in a 500, so the two failing logins are told apart. *)
Theorem C9_login_raises_for_registered_email
  (cfg : JWTSettings) (sign : string -> string -> Claims -> string)
  (verify : string -> string -> option bool)
  (st : Store) (now1 now2 : Z) (b1 b2 : UserLogin) (u : User) :
  ~ In (login_email b1) (map email (users st)) ->
  has_nul (login_email b1) = false ->
  unique_emails (users st) ->
  In u (users st) ->
  email u = login_email b2 ->
  verify (login_password b2) (hashed_password u) = None ->
  login cfg sign verify now1 b1 st
  = (HTTPException 401 "Неверные учетные данные", after_session st)
  /\ login cfg sign verify now2 b2 st
     = (Unhandled "ValueError", after_session st)
  /\ fst (login cfg sign verify now1 b1 st)
     <> fst (login cfg sign verify now2 b2 st).
Proof.
  intros Hunknown _ Huniq Hin He Hraise.
  assert (E1 : login cfg sign verify now1 b1 st
               = (HTTPException 401 "Неверные учетные данные",
                  after_session st)).
  { unfold login, bind.
    now rewrite (get_user_by_email_unknown st (login_email b1) Hunknown). }
  assert (E2 : login cfg sign verify now2 b2 st
               = (Unhandled "ValueError", after_session st)).
  { unfold login, bind. rewrite <- He.
    rewrite (get_user_by_email_registered st u Huniq Hin).
    unfold verify_password. now rewrite Hraise. }
  rewrite E1, E2. repeat split. simpl. discriminate.
Qed.

Lemma C9_login_raises_for_registered_email_witness :
  login demo_settings demo_sign demo_verify demo_now
        (mkUserLogin "nobody@x.com" nul_password) demo_store
  = (HTTPException 401 "Неверные учетные данные", after_session demo_store)
  /\ login demo_settings demo_sign demo_verify demo_now
           (mkUserLogin "a@x.com" nul_password) demo_store
     = (Unhandled "ValueError", after_session demo_store)
  /\ fst (login demo_settings demo_sign demo_verify demo_now
                 (mkUserLogin "nobody@x.com" nul_password) demo_store)
     <> fst (login demo_settings demo_sign demo_verify demo_now
                   (mkUserLogin "a@x.com" nul_password) demo_store).
Proof.
  apply (C9_login_raises_for_registered_email demo_settings demo_sign
           demo_verify demo_store demo_now demo_now
           (mkUserLogin "nobody@x.com" nul_password)
           (mkUserLogin "a@x.com" nul_password) alice).
  - simpl. intuition discriminate.
  - reflexivity.
  - concrete_table.
  - simpl. auto.
  - reflexivity.
  - vm_compute. reflexivity.
Defined.

(** The demo deployment does log alice in with her own password, and
    refuses a wrong one with 401. *)
Lemma login_demo_success :
  login demo_settings demo_sign demo_verify demo_now
        (mkUserLogin "a@x.com" "password123") demo_store
  = (Ok alice_token, after_session demo_store)
  /\ login demo_settings demo_sign demo_verify demo_now
           (mkUserLogin "a@x.com" "wrongpass") demo_store
     = (HTTPException 401 "Неверные учетные данные", after_session demo_store).
Proof. split; vm_compute; reflexivity. Qed.

(** ** The constraints are invariants of the DAO layer *)

Lemma store_ok_empty : store_ok empty_store.
Proof.
  unfold store_ok, pk_unique, unique_emails. simpl.
  repeat split; constructor.
Qed.

Lemma set_fields_keeps_key (fields : list (string * string))
  (obj obj' : Resume) :
  set_fields obj fields = Some obj' ->
  id obj' = id obj /\ user_id obj' = user_id obj.
Proof.
  revert obj. induction fields as [|[k v] rest IH]; simpl; intros obj H.
  - injection H as <-. auto.
  - destruct (hasattr k); [|now apply IH].
    destruct (setattr obj k v) as [o|] eqn:E; [|discriminate].
    apply IH in H. unfold setattr in E.
    destruct (String.eqb k "title");
      [|destruct (String.eqb k "content"); [|discriminate]];
      injection E as <-; simpl in H; exact H.
Qed.

Lemma map_id_flush_update (obj : Resume) (t : list Resume) :
  map id (flush_update obj t) = map id t.
Proof.
  unfold flush_update. rewrite map_map. apply map_ext.
  intros q. destruct (Z.eqb_spec (id q) (id obj)); congruence.
Qed.

(** Deleting a row keeps the primary key unique. *)
Lemma pk_unique_flush_delete (obj : Resume) (t : list Resume) :
  pk_unique t -> pk_unique (flush_delete obj t).
Proof.
  unfold pk_unique. intros Hnd.
  induction t as [|x t IH]; [constructor|].
  inversion Hnd as [|? ? Hx Hnd']; subst.
  unfold flush_delete in *. cbn [filter].
  destruct (negb (id x =? id obj)); [|now apply IH].
  cbn [map]. constructor; [|now apply IH].
  intros Hin. apply Hx.
  apply in_map_iff in Hin. destruct Hin as (y & E & Hy).
  apply filter_In in Hy. rewrite <- E. apply in_map. tauto.
Qed.

Lemma Forall_flush_update (P : Resume -> Prop) (obj : Resume)
  (t : list Resume) :
  P obj -> Forall P t -> Forall P (flush_update obj t).
Proof.
  intros Hobj Ht. unfold flush_update. apply Forall_map.
  eapply Forall_impl; [|exact Ht].
  intros q Hq. simpl. destruct (id q =? id obj); assumption.
Qed.

Lemma Forall_flush_delete (P : Resume -> Prop) (obj : Resume)
  (t : list Resume) :
  Forall P t -> Forall P (flush_delete obj t).
Proof.
  rewrite !Forall_forall. intros H q Hq.
  apply in_flush_delete in Hq. apply H. tauto.
Qed.

(** The rows the compound filter returns are rows of the table with that
    id and that owner. *)
Lemma filter_owned_singleton (t : list Resume) (res_id uid : Z)
  (obj : Resume) :
  filter (owned_by res_id uid) t = [obj] ->
  In obj t /\ id obj = res_id /\ user_id obj = uid.
Proof.
  intros E.
  assert (H : In obj (filter (owned_by res_id uid) t))
    by (rewrite E; simpl; auto).
  apply filter_In in H. destruct H as [Hin Hp].
  apply owned_by_true in Hp. tauto.
Qed.

Lemma update_for_user_store_ok (res_id uid : Z)
  (fields : list (string * string)) (st : Store) :
  store_ok st -> store_ok (snd (update_for_user res_id uid fields st)).
Proof.
  intros (Hpk & Hue & Hui & Hr & Hu).
  unfold update_for_user, bind, get_session, read_resumes.
  cbn [fst snd resumes users].
  destruct (filter (owned_by res_id uid) (resumes st)) as [|obj [|y l]] eqn:E;
    cbn -[flush_update]; try (repeat split; assumption).
  destruct (set_fields obj fields) as [obj'|] eqn:F; cbn -[flush_update];
    [|repeat split; assumption].
  destruct (set_fields_keeps_key fields obj obj' F) as [Hid _].
  destruct (filter_owned_singleton _ _ _ _ E) as (Hin & _ & _).
  unfold store_ok. cbn -[flush_update].
  repeat split; try assumption.
  - unfold pk_unique. now rewrite map_id_flush_update.
  - apply Forall_flush_update; [|assumption].
    rewrite Hid. rewrite Forall_forall in Hr. now apply Hr.
Qed.

Lemma delete_for_user_store_ok (res_id uid : Z) (st : Store) :
  store_ok st -> store_ok (snd (delete_for_user res_id uid st)).
Proof.
  intros (Hpk & Hue & Hui & Hr & Hu).
  unfold delete_for_user, bind, get_session, read_resumes.
  cbn [fst snd resumes users].
  destruct (filter (owned_by res_id uid) (resumes st)) as [|obj [|y l]];
    unfold store_ok; cbn -[flush_delete]; repeat split; try assumption.
  - now apply pk_unique_flush_delete.
  - now apply Forall_flush_delete.
Qed.

Lemma add_for_user_store_ok (uid : Z) (ttl cnt : string) (st : Store) :
  store_ok st -> store_ok (snd (add_for_user uid ttl cnt st)).
Proof.
  intros (Hpk & Hue & Hui & Hr & Hu).
  unfold add_for_user, bind, get_session, store_ok. cbn.
  destruct (existsb (fun u => user_id_of u =? uid) (users st)); cbn.
  - repeat split; try assumption.
    + unfold pk_unique. rewrite map_app. apply NoDup_snoc; [assumption|].
      cbn. intros Hin. apply in_map_iff in Hin. destruct Hin as (q & E & Hq).
      rewrite Forall_forall in Hr. specialize (Hr q Hq). cbn in Hr. lia.
    + apply Forall_app. split.
      * eapply Forall_impl; [|exact Hr]. cbn. intros; lia.
      * repeat constructor. cbn. lia.
  - repeat split; try assumption.
    eapply Forall_impl; [|exact Hr]. cbn. intros; lia.
Qed.

Lemma create_user_store_ok (e hashed : string) (st : Store) :
  store_ok st -> store_ok (snd (create_user e hashed st)).
Proof.
  intros (Hpk & Hue & Hui & Hr & Hu).
  unfold create_user, bind, get_session, store_ok. cbn.
  destruct (existsb (fun u => String.eqb (email u) e) (users st)) eqn:E; cbn.
  - repeat split; try assumption.
    eapply Forall_impl; [|exact Hu]. cbn. intros; lia.
  - repeat split; try assumption.
    + apply unique_emails_snoc; [assumption|]. cbn.
      intros Hin. apply in_map_iff in Hin. destruct Hin as (u & Eu & Hin).
      assert (X : existsb (fun u => String.eqb (email u) e) (users st) = true).
      { apply existsb_exists. exists u. split; [assumption|].
        now apply String.eqb_eq. }
      congruence.
    + rewrite map_app. apply NoDup_snoc; [assumption|].
      cbn. intros Hin. apply in_map_iff in Hin. destruct Hin as (q & Eq & Hq).
      rewrite Forall_forall in Hu. specialize (Hu q Hq). cbn in Hu. lia.
    + apply Forall_app. split.
      * eapply Forall_impl; [|exact Hu]. cbn. intros; lia.
      * repeat constructor. cbn. lia.
Qed.

(** Every successful [update_resume] is one of an owned row with a body that
    supplies something, and answers with that row updated. *)
Lemma update_resume_success (res_id : Z) (body : ResumeUpdate) (U : User)
  (st st' : Store) (out : ResumeOut) :
  update_resume res_id body U st = (Ok out, st') ->
  exists r,
    In r (resumes st) /\ id r = res_id /\ user_id r = user_id_of U
    /\ effective_fields body <> []
    /\ out = ResumeOut_of (updated_row r body)
    /\ resumes st' = flush_update (updated_row r body) (resumes st).
Proof.
  unfold update_resume.
  destruct (effective_fields body) as [|kv rest] eqn:D; [discriminate|].
  rewrite <- D.
  unfold update_for_user, bind, get_session, read_resumes. simpl.
  destruct (filter (owned_by res_id (user_id_of U)) (resumes st))
    as [|obj [|y l]] eqn:E; simpl; try discriminate.
  rewrite set_fields_effective. simpl. intros [= <- <-].
  destruct (filter_owned_singleton _ _ _ _ E) as (Hin & Hid & Hown).
  exists obj. repeat split; try assumption. congruence.
Qed.

(** Every successful [delete_resume] is one of an owned row, which it
    returns and removes. *)
Lemma delete_resume_success (res_id : Z) (U : User) (st st' : Store)
  (out : ResumeOut) :
  delete_resume res_id U st = (Ok out, st') ->
  exists r,
    In r (resumes st) /\ id r = res_id /\ user_id r = user_id_of U
    /\ out = ResumeOut_of r
    /\ resumes st' = flush_delete r (resumes st).
Proof.
  unfold delete_resume, delete_for_user, bind, get_session, read_resumes.
  cbn [fst snd resumes].
  destruct (filter (owned_by res_id (user_id_of U)) (resumes st))
    as [|obj [|y l]] eqn:E; cbn -[flush_delete]; try discriminate.
  intros [= <- <-].
  destruct (filter_owned_singleton _ _ _ _ E) as (Hin & Hid & Hown).
  exists obj. repeat split; assumption.
Qed.

(** The owner's own lookup returns the resume. *)
Lemma get_resume_by_owner (st : Store) (r : Resume) (U : User) :
  pk_unique (resumes st) ->
  In r (resumes st) ->
  user_id r = user_id_of U ->
  get_resume (id r) U st = (Ok (ResumeOut_of r), after_session st).
Proof.
  intros Hpk Hin Hown.
  unfold get_resume, get_by_id_for_user, bind, get_session, read_resumes.
  simpl. rewrite <- Hown, (filter_owned_owner (resumes st) r Hpk Hin).
  reflexivity.
Qed.

(** The scenario of the specification: A's resume 1 is returned to A and
    not found for B. *)
Example get_resume_scenario :
  get_resume 1 alice demo_store
  = (Ok (mkResumeOut 1 "R1" "C1"), after_session demo_store)
  /\ get_resume 1 bob demo_store
     = (HTTPException 404 "Resume not found", after_session demo_store).
Proof. split; reflexivity. Qed.

(** * Further properties of the handlers *)

(** ** What the read-only calls leave behind *)

Lemma get_user_by_email_store (e : string) (st : Store) :
  snd (get_user_by_email e st) = after_session st.
Proof.
  unfold get_user_by_email, bind, get_session, read_users. simpl.
  destruct (filter (fun u => String.eqb (email u) e) (users st))
    as [|x [|y l]]; reflexivity.
Qed.

Lemma get_by_id_for_user_store (res_id uid : Z) (st : Store) :
  snd (get_by_id_for_user res_id uid st) = after_session st.
Proof.
  unfold get_by_id_for_user, bind, get_session, read_resumes. simpl.
  destruct (filter (owned_by res_id uid) (resumes st)) as [|x [|y l]];
    reflexivity.
Qed.

(** The state a [bind] ends in when its first step always ends in [st1]
    and its continuation never touches the state. *)
Lemma bind_store_const {A B} (m : DB A) (k : A -> DB B) (st st1 : Store) :
  snd (m st) = st1 ->
  (forall a s, snd (k a s) = s) ->
  snd (bind m k st) = st1.
Proof.
  intros Hm Hk. unfold bind.
  destruct (m st) as [[a|c d|x] s]; simpl in *; subst; auto.
Qed.

Lemma get_user_by_email_found (e : string) (st st' : Store) (u : User) :
  get_user_by_email e st = (Ok (Some u), st') ->
  In u (users st) /\ email u = e /\ st' = after_session st.
Proof.
  unfold get_user_by_email, bind, get_session, read_users. simpl.
  destruct (filter (fun v => String.eqb (email v) e) (users st))
    as [|x [|y l]] eqn:E; simpl; try discriminate.
  intros [= <- <-].
  assert (H : In x (filter (fun v => String.eqb (email v) e) (users st)))
    by (rewrite E; simpl; auto).
  apply filter_In in H. destruct H as [Hin He].
  apply String.eqb_eq in He. auto.
Qed.

(** ** Listing *)

(** X1: [list_resumes] answers with the caller's resumes and nothing else:
    a view is in the response exactly when it is the view of a stored row
    whose owner is the caller; the response keeps the order of the table,
    and the tables are not written. *)
Theorem list_resumes_exactly_own (U : User) (st : Store) :
  exists outs,
    list_resumes U st = (Ok outs, after_session st)
    /\ outs = map ResumeOut_of
                  (filter (fun r => user_id r =? user_id_of U) (resumes st))
    /\ (forall o, In o outs <->
                  exists r, In r (resumes st)
                            /\ user_id r = user_id_of U
                            /\ o = ResumeOut_of r).
Proof.
  eexists. split; [reflexivity|]. split; [reflexivity|].
  intros o. rewrite in_map_iff. split.
  - intros (r & E & Hr). apply filter_In in Hr. destruct Hr as [Hin Hu].
    apply Z.eqb_eq in Hu. exists r. auto.
  - intros (r & Hin & Hu & ->). exists r. split; [reflexivity|].
    apply filter_In. split; [assumption|]. now apply Z.eqb_eq.
Qed.

(** ** Requests that must not reach a row *)

(** X2: a user who does not own a resume can neither update, delete nor
    improve it: each of the three handlers answers 404 "Resume not found",
    whatever [Base] is, and leaves both tables as they were. *)
Theorem non_owner_cannot_modify
  (mapping : option (Resume -> pydict))
  (st : Store) (r : Resume) (A B : User) (body : ResumeUpdate) :
  pk_unique (resumes st) ->
  In r (resumes st) ->
  user_id r = user_id_of A ->
  user_id_of B <> user_id_of A ->
  effective_fields body <> [] ->
  update_resume (id r) body B st
  = (HTTPException 404 "Resume not found", after_session st)
  /\ delete_resume (id r) B st
     = (HTTPException 404 "Resume not found", after_session st)
  /\ improve_resume mapping (id r) B st
     = (HTTPException 404 "Resume not found", after_session st)
  /\ In r (resumes (after_session st)).
Proof.
  intros Hpk Hin Hown Hne Hdata.
  assert (Hsel : filter (owned_by (id r) (user_id_of B)) (resumes st) = []).
  { apply filter_owned_other; auto. congruence. }
  repeat split.
  - unfold update_resume.
    destruct (effective_fields body) as [|kv rest] eqn:D; [congruence|].
    unfold update_for_user, bind, get_session, read_resumes. simpl.
    rewrite Hsel. reflexivity.
  - unfold delete_resume, delete_for_user, bind, get_session, read_resumes.
    simpl. rewrite Hsel. reflexivity.
  - unfold improve_resume, get_by_id_for_user, bind, get_session,
      read_resumes. simpl. rewrite Hsel. reflexivity.
  - exact Hin.
Qed.

Lemma non_owner_cannot_modify_witness :
  update_resume (id resume1) (mkResumeUpdate (Some "mine now") None) bob
                demo_store
  = (HTTPException 404 "Resume not found", after_session demo_store)
  /\ delete_resume (id resume1) bob demo_store
     = (HTTPException 404 "Resume not found", after_session demo_store)
  /\ improve_resume None (id resume1) bob demo_store
     = (HTTPException 404 "Resume not found", after_session demo_store)
  /\ In resume1 (resumes (after_session demo_store)).
Proof.
  apply (non_owner_cannot_modify None demo_store resume1 alice bob
           (mkResumeUpdate (Some "mine now") None)).
  - concrete_table.
  - simpl. auto.
  - reflexivity.
  - simpl. lia.
  - discriminate.
Defined.

(** X3: an id in the range of the column that no row carries gives 404
    "Resume not found" from the get, update, delete and improve handlers
    alike, for every caller, and the tables stay as they were. *)
Theorem unknown_id_not_found
  (mapping : option (Resume -> pydict))
  (st : Store) (res_id : Z) (U : User) (body : ResumeUpdate) :
  int32 res_id ->
  int32 (user_id_of U) ->
  ~ In res_id (map id (resumes st)) ->
  effective_fields body <> [] ->
  get_resume res_id U st
  = (HTTPException 404 "Resume not found", after_session st)
  /\ update_resume res_id body U st
     = (HTTPException 404 "Resume not found", after_session st)
  /\ delete_resume res_id U st
     = (HTTPException 404 "Resume not found", after_session st)
  /\ improve_resume mapping res_id U st
     = (HTTPException 404 "Resume not found", after_session st).
Proof.
  intros _ _ Habs Hdata.
  assert (Hsel := filter_owned_absent (resumes st) res_id (user_id_of U) Habs).
  repeat split.
  - unfold get_resume, get_by_id_for_user, bind, get_session, read_resumes.
    simpl. rewrite Hsel. reflexivity.
  - unfold update_resume.
    destruct (effective_fields body) as [|kv rest] eqn:D; [congruence|].
    unfold update_for_user, bind, get_session, read_resumes. simpl.
    rewrite Hsel. reflexivity.
  - unfold delete_resume, delete_for_user, bind, get_session, read_resumes.
    simpl. rewrite Hsel. reflexivity.
  - unfold improve_resume, get_by_id_for_user, bind, get_session,
      read_resumes. simpl. rewrite Hsel. reflexivity.
Qed.

Lemma unknown_id_not_found_witness :
  get_resume 99 alice demo_store
  = (HTTPException 404 "Resume not found", after_session demo_store)
  /\ update_resume 99 (mkResumeUpdate None (Some "text")) alice demo_store
     = (HTTPException 404 "Resume not found", after_session demo_store)
  /\ delete_resume 99 alice demo_store
     = (HTTPException 404 "Resume not found", after_session demo_store)
  /\ improve_resume None 99 alice demo_store
     = (HTTPException 404 "Resume not found", after_session demo_store).
Proof.
  apply (unknown_id_not_found None demo_store 99 alice
           (mkResumeUpdate None (Some "text"))).
  - unfold int32. lia.
  - unfold int32. simpl. lia.
  - simpl. intuition lia.
  - discriminate.
Defined.

(** ** Creating *)

Lemma store_ok_after_session (st : Store) :
  store_ok st -> store_ok (after_session st).
Proof. intros H. exact H. Qed.

Lemma fresh_resume_id (st : Store) :
  store_ok st -> ~ In (resume_seq st) (map id (resumes st)).
Proof.
  intros (_ & _ & _ & Hr & _) Hin.
  apply in_map_iff in Hin. destruct Hin as (q & E & Hq).
  rewrite Forall_forall in Hr. specialize (Hr q Hq). simpl in Hr. lia.
Qed.

Lemma existsb_user_id (t : list User) (U : User) :
  In U t -> existsb (fun u => user_id_of u =? user_id_of U) t = true.
Proof.
  intros Hin. apply existsb_exists. exists U. split; [assumption|].
  apply Z.eqb_refl.
Qed.

(** What [add_for_user] does for the id of a stored user. *)
Lemma add_for_user_stored (U : User) (ttl cnt : string) (st : Store) :
  In U (users st) ->
  add_for_user (user_id_of U) ttl cnt st
  = (Ok (mkResume (resume_seq st) ttl cnt (user_id_of U)),
     mkStore (users st)
             (resumes st ++ [mkResume (resume_seq st) ttl cnt (user_id_of U)])
             (user_seq st) (resume_seq st + 1) (S (sessions st))).
Proof.
  intros Hin. unfold add_for_user, bind, get_session. cbn.
  now rewrite (existsb_user_id (users st) U Hin).
Qed.

(** X4: for a caller who is a stored user, a body whose texts the
    database accepts (no NUL byte) and a sequence that has not left the
    range of the column, [create_resume] stores the body under the next id
    of the sequence with the caller as owner, whatever else the request
    carries. The new row is appended and the old
    ones kept; the owner reads it back with [get_resume], and every other
    user gets 404 for its id. *)
Theorem create_resume_stamps_owner
  (body : ResumeCreate) (U : User) (st : Store) :
  store_ok st ->
  In U (users st) ->
  int32 (resume_seq st) ->
  has_nul (new_title body) = false ->
  has_nul (new_content body) = false ->
  let row := mkResume (resume_seq st) (new_title body) (new_content body)
                      (user_id_of U) in
  exists st',
    create_resume body U st
    = (Ok (mkResumeOut (resume_seq st) (new_title body) (new_content body)),
       st')
    /\ resumes st' = (resumes st ++ [row])%list
    /\ users st' = users st
    /\ ~ In (id row) (map id (resumes st))
    /\ get_resume (id row) U st'
       = (Ok (mkResumeOut (resume_seq st) (new_title body) (new_content body)),
          after_session st')
    /\ (forall B, user_id_of B <> user_id_of U ->
                  get_resume (id row) B st'
                  = (HTTPException 404 "Resume not found", after_session st')).
Proof.
  intros Hok HU _ _ _ row.
  pose proof (add_for_user_store_ok (user_id_of U) (new_title body)
                (new_content body) st Hok) as Hok'.
  pose proof (add_for_user_stored U (new_title body) (new_content body) st HU)
    as Hadd.
  rewrite Hadd in Hok'. destruct Hok' as (Hpk' & _). cbn [snd resumes] in Hpk'.
  fold row in Hadd, Hpk'.
  assert (Hin : In row (resumes st ++ [row])%list)
    by (apply in_or_app; right; simpl; auto).
  eexists. split.
  - unfold create_resume, bind. rewrite Hadd. reflexivity.
  - cbn [resumes users]. split; [reflexivity|]. split; [reflexivity|].
    split; [exact (fresh_resume_id st Hok)|]. split.
    + refine (get_resume_by_owner
                (mkStore _ (resumes st ++ [row]) _ _ _) row U Hpk' Hin _).
      reflexivity.
    + intros B HB.
      unfold get_resume, get_by_id_for_user, bind, get_session, read_resumes.
      cbn [fst snd resumes].
      rewrite (filter_owned_other _ row (user_id_of B) Hpk' Hin);
        [reflexivity|]. simpl. congruence.
Qed.

Lemma demo_store_ok : store_ok demo_store.
Proof.
  unfold store_ok. repeat split; try concrete_table;
    repeat constructor; simpl; lia.
Defined.

Lemma create_resume_stamps_owner_witness :
  exists st',
    create_resume (mkResumeCreate "R4" "C4") bob demo_store
    = (Ok (mkResumeOut 4 "R4" "C4"), st')
    /\ resumes st' = (resumes demo_store ++ [mkResume 4 "R4" "C4" 2])%list
    /\ users st' = users demo_store
    /\ ~ In 4 (map id (resumes demo_store))
    /\ get_resume 4 bob st'
       = (Ok (mkResumeOut 4 "R4" "C4"), after_session st')
    /\ (forall B, user_id_of B <> user_id_of bob ->
                  get_resume 4 B st'
                  = (HTTPException 404 "Resume not found", after_session st')).
Proof.
  apply (create_resume_stamps_owner (mkResumeCreate "R4" "C4") bob demo_store
           demo_store_ok).
  - simpl. auto.
  - unfold int32. simpl. lia.
  - reflexivity.
  - reflexivity.
Defined.

(** A caller who is not a stored user creates nothing: the foreign key
    rejects the row. *)
Lemma create_resume_unstored_caller
  (body : ResumeCreate) (U : User) (st : Store) :
  ~ In (user_id_of U) (map user_id_of (users st)) ->
  fst (create_resume body U st) = Unhandled "IntegrityError"
  /\ resumes (snd (create_resume body U st)) = resumes st.
Proof.
  intros Hni.
  assert (E : existsb (fun u => user_id_of u =? user_id_of U) (users st)
              = false).
  { destruct (existsb _ (users st)) eqn:X; [|reflexivity].
    apply existsb_exists in X. destruct X as (u & Hu & Eq).
    apply Z.eqb_eq in Eq. exfalso. apply Hni. rewrite <- Eq.
    now apply in_map. }
  unfold create_resume, add_for_user, bind, get_session. cbn.
  rewrite E. split; reflexivity.
Qed.

Lemma flush_delete_appended (t : list Resume) (row : Resume) :
  ~ In (id row) (map id t) -> flush_delete row (t ++ [row]) = t.
Proof.
  intros Hfresh. unfold flush_delete. rewrite filter_app. simpl.
  rewrite Z.eqb_refl. simpl. rewrite app_nil_r.
  induction t as [|q t IH]; simpl in *; [reflexivity|].
  destruct (Z.eqb_spec (id q) (id row)) as [E|E]; [tauto|].
  simpl. f_equal. apply IH. tauto.
Qed.

(** X5: for a caller who is a stored user, a body whose texts the
    database accepts and a sequence within the range of the column, deleting
    the resume one has just created gives back the resume table from before the creation, row
    for row, while the sequence stays advanced, so the id is not handed out
    again. *)
Theorem create_then_delete_restores_table
  (body : ResumeCreate) (U : User) (st : Store) :
  store_ok st ->
  In U (users st) ->
  int32 (resume_seq st) ->
  has_nul (new_title body) = false ->
  has_nul (new_content body) = false ->
  exists st1 st2,
    create_resume body U st
    = (Ok (mkResumeOut (resume_seq st) (new_title body) (new_content body)),
       st1)
    /\ delete_resume (resume_seq st) U st1
       = (Ok (mkResumeOut (resume_seq st) (new_title body) (new_content body)),
          st2)
    /\ resumes st2 = resumes st
    /\ users st2 = users st
    /\ resume_seq st2 = resume_seq st + 1.
Proof.
  intros Hok HU _ _ _.
  set (row := mkResume (resume_seq st) (new_title body) (new_content body)
                       (user_id_of U)).
  pose proof (add_for_user_store_ok (user_id_of U) (new_title body)
                (new_content body) st Hok) as Hok'.
  pose proof (add_for_user_stored U (new_title body) (new_content body) st HU)
    as Hadd.
  rewrite Hadd in Hok'. destruct Hok' as (Hpk' & _). cbn [snd resumes] in Hpk'.
  fold row in Hadd, Hpk'.
  assert (Hin : In row (resumes st ++ [row])%list)
    by (apply in_or_app; right; simpl; auto).
  eexists. eexists. split.
  - unfold create_resume, bind. rewrite Hadd. reflexivity.
  - unfold delete_resume, delete_for_user, bind, get_session, read_resumes.
    cbn [fst snd resumes users user_seq resume_seq sessions].
    change (resume_seq st) with (id row) at 1.
    change (user_id_of U) with (user_id row) at 1.
    rewrite (filter_owned_owner _ row Hpk' Hin).
    cbn -[flush_delete].
    split; [reflexivity|]. cbn -[flush_delete].
    split; [|split; reflexivity].
    apply flush_delete_appended. exact (fresh_resume_id st Hok).
Qed.

Lemma create_then_delete_restores_table_witness :
  exists st1 st2,
    create_resume (mkResumeCreate "R4" "C4") bob demo_store
    = (Ok (mkResumeOut 4 "R4" "C4"), st1)
    /\ delete_resume 4 bob st1 = (Ok (mkResumeOut 4 "R4" "C4"), st2)
    /\ resumes st2 = resumes demo_store
    /\ users st2 = users demo_store
    /\ resume_seq st2 = 4 + 1.
Proof.
  apply (create_then_delete_restores_table (mkResumeCreate "R4" "C4") bob
           demo_store demo_store_ok).
  - simpl. auto.
  - unfold int32. simpl. lia.
  - reflexivity.
  - reflexivity.
Defined.

(** ** Updating, again *)









(** ** Ownership is never transferred *)

(** The id and the owner of each row, in table order. *)
Lemma flush_update_keeps_owners (obj obj' : Resume) (t : list Resume) :
  pk_unique t -> In obj t ->
  id obj' = id obj -> user_id obj' = user_id obj ->
  map (fun r => (id r, user_id r)) (flush_update obj' t)
  = map (fun r => (id r, user_id r)) t.
Proof.
  intros Hpk Hin Hid Hown. unfold flush_update. rewrite map_map.
  apply map_ext_in. intros q Hq.
  destruct (Z.eqb_spec (id q) (id obj')) as [E|E]; [|reflexivity].
  assert (q = obj)
    by (apply (pk_unique_row t q obj Hpk Hq Hin); congruence).
  subst q. congruence.
Qed.

(** [update_for_user] with the fields [update_resume] passes it (names of
    the body's fields, [str] values) leaves ids and owners alone. *)
Lemma update_for_user_str_fields_keep_owners
  (res_id uid : Z) (fields : list (string * string)) (st : Store) :
  pk_unique (resumes st) ->
  map (fun r => (id r, user_id r))
      (resumes (snd (update_for_user res_id uid fields st)))
  = map (fun r => (id r, user_id r)) (resumes st)
  /\ users (snd (update_for_user res_id uid fields st)) = users st.
Proof.
  intros Hpk.
  unfold update_for_user, bind, get_session, read_resumes.
  cbn [fst snd resumes users].
  destruct (filter (owned_by res_id uid) (resumes st)) as [|obj [|y l]] eqn:E;
    cbn -[flush_update]; auto.
  destruct (set_fields obj fields) as [obj'|] eqn:F; cbn -[flush_update];
    auto.
  destruct (set_fields_keeps_key fields obj obj' F) as [Hid Hown].
  destruct (filter_owned_singleton _ _ _ _ E) as (Hin & _ & _).
  split; [|reflexivity].
  now apply (flush_update_keeps_owners obj obj').
Qed.

(** X8: no request to [update_resume], whatever id, caller and body it
    carries and however it ends, changes the id or the owner of any row, or
    the number of rows, or the user table: the body of an update has a
    title and a content and nothing else, so the endpoint cannot hand a
    resume to another user. *)
Theorem update_resume_keeps_owners
  (res_id : Z) (body : ResumeUpdate) (U : User) (st : Store) :
  pk_unique (resumes st) ->
  map (fun r => (id r, user_id r))
      (resumes (snd (update_resume res_id body U st)))
  = map (fun r => (id r, user_id r)) (resumes st)
  /\ users (snd (update_resume res_id body U st)) = users st.
Proof.
  intros Hpk. unfold update_resume.
  destruct (effective_fields body) as [|kv rest]; [split; reflexivity|].
  pose proof (update_for_user_str_fields_keep_owners res_id (user_id_of U)
                (kv :: rest) st Hpk) as H.
  unfold bind.
  destruct (update_for_user res_id (user_id_of U) (kv :: rest) st)
    as [[[v|]|c d|x] st2]; exact H.
Qed.

Lemma update_resume_keeps_owners_witness :
  map (fun r => (id r, user_id r))
      (resumes (snd (update_resume 1 (mkResumeUpdate (Some "T") (Some "C"))
                                   alice demo_store)))
  = map (fun r => (id r, user_id r)) (resumes demo_store)
  /\ users (snd (update_resume 1 (mkResumeUpdate (Some "T") (Some "C"))
                               alice demo_store))
     = users demo_store.
Proof.
  apply (update_resume_keeps_owners 1 (mkResumeUpdate (Some "T") (Some "C"))
           alice demo_store).
  concrete_table.
Defined.

(** ** The constraints hold after every handler *)

Lemma get_current_user_store
  (cfg : JWTSettings) (sign : string -> string -> Claims -> string)
  (now : Z) (tok : token) (st : Store) :
  snd (get_current_user cfg sign now tok st) = st
  \/ snd (get_current_user cfg sign now tok st) = after_session st.
Proof.
  unfold get_current_user.
  destruct (token_is_empty tok); [left; reflexivity|].
  destruct (jwt_decode sign now tok (JWT_SECRET cfg) [JWT_ALG cfg])
    as [e|payload]; [left; reflexivity|].
  destruct (sub payload) as [[|a s]|]; try (left; reflexivity).
  right. apply bind_store_const.
  - apply get_user_by_email_store.
  - intros [u|] s0; reflexivity.
Qed.

(** X9: every handler that writes keeps the store well formed: after
    [register], [create_resume], [update_resume] and [delete_resume],
    whatever their arguments and outcome, resume ids and user ids are still
    unique, e-mails are still unique, and both sequences are still ahead of
    every id in use. *)
Theorem handlers_keep_store_ok
  (cfg : JWTSettings) (sign : string -> string -> Claims -> string)
  (hash : string -> string -> option string) (st : Store)
  (now : Z) (salt : string) (reg : UserRegistration)
  (new : ResumeCreate) (res_id : Z) (upd : ResumeUpdate) (U : User) :
  store_ok st ->
  store_ok (snd (register cfg sign hash now salt reg st))
  /\ store_ok (snd (create_resume new U st))
  /\ store_ok (snd (update_resume res_id upd U st))
  /\ store_ok (snd (delete_resume res_id U st)).
Proof.
  intros Hok. split; [|split; [|split]].
  - unfold register, bind.
    destruct (get_user_by_email (reg_email reg) st) as [[[u|]|c d|x] st1] eqn:G;
      pose proof (get_user_by_email_store (reg_email reg) st) as Hst;
      rewrite G in Hst; simpl in Hst; subst st1;
      try exact Hok.
    unfold hash_password.
    destruct (hash salt (reg_password reg)) as [hashed|]; [|exact Hok].
    cbv [ret].
    pose proof (create_user_store_ok (reg_email reg) hashed
                  (after_session st) Hok) as Hc.
    destruct (create_user (reg_email reg) hashed (after_session st))
      as [[v|c d|x] st2]; try exact Hc.
    unfold call_create_access_token.
    destruct (is_datetime now
              && is_datetime (now + timedelta_minutes
                                      (ACCESS_TOKEN_EXPIRE_MIN cfg)));
      exact Hc.
  - unfold create_resume, bind.
    pose proof (add_for_user_store_ok (user_id_of U) (new_title new)
                  (new_content new) st Hok) as Ha.
    destruct (add_for_user (user_id_of U) (new_title new) (new_content new) st)
      as [[v|c d|x] st2]; exact Ha.
  - unfold update_resume.
    destruct (effective_fields upd) as [|kv rest]; [exact Hok|].
    unfold bind.
    pose proof (update_for_user_store_ok res_id (user_id_of U) (kv :: rest)
                  st Hok) as Hu.
    destruct (update_for_user res_id (user_id_of U) (kv :: rest) st)
      as [[[v|]|c d|x] st2]; exact Hu.
  - unfold delete_resume, bind.
    pose proof (delete_for_user_store_ok res_id (user_id_of U) st Hok) as Hd.
    destruct (delete_for_user res_id (user_id_of U) st)
      as [[[v|]|c d|x] st2]; exact Hd.
Qed.

Lemma handlers_keep_store_ok_witness :
  store_ok (snd (register demo_settings demo_sign demo_hash demo_now "salt"
                          (mkUserRegistration "c@x.com" "password123")
                          demo_store))
  /\ store_ok (snd (create_resume (mkResumeCreate "R4" "C4") alice demo_store))
  /\ store_ok (snd (update_resume 1 (mkResumeUpdate (Some "T") None) alice
                                  demo_store))
  /\ store_ok (snd (delete_resume 1 alice demo_store)).
Proof.
  exact (handlers_keep_store_ok demo_settings demo_sign demo_hash demo_store
           demo_now "salt" (mkUserRegistration "c@x.com" "password123")
           (mkResumeCreate "R4" "C4") 1 (mkResumeUpdate (Some "T") None) alice
           demo_store_ok).
Defined.

(** ** Who gets authenticated *)

(** X10: [get_current_user] returns a user only for a well-formed token
    whose header names the configured algorithm, whose signature verifies
    under the process secret, whose [exp], if present, is not before the
    clock's whole second, and whose [sub] is the non-empty e-mail of that
    user, a row of the user table. Exactly one session was opened. *)
Theorem get_current_user_sound
  (cfg : JWTSettings) (sign : string -> string -> Claims -> string)
  (now : Z) (tok : token) (st st' : Store) (u : User) :
  get_current_user cfg sign now tok st = (Ok u, st') ->
  exists j,
    tok = Compact j
    /\ jws_alg j = JWT_ALG cfg
    /\ jws_signature j = sign (JWT_SECRET cfg) (jws_alg j) (jws_claims j)
    /\ (forall e, exp (jws_claims j) = Some e -> timegm_now now <= e)
    /\ sub (jws_claims j) = Some (email u)
    /\ email u <> ""
    /\ In u (users st)
    /\ st' = after_session st.
Proof.
  unfold get_current_user.
  destruct (token_is_empty tok); [discriminate|].
  destruct tok as [raw|j]; [discriminate|].
  unfold jwt_decode.
  assert (Hx : existsb (String.eqb (jws_alg j)) [JWT_ALG cfg]
               = String.eqb (jws_alg j) (JWT_ALG cfg))
    by (simpl; apply orb_false_r).
  rewrite Hx; clear Hx.
  destruct (String.eqb_spec (jws_alg j) (JWT_ALG cfg)) as [Halg|Halg];
    [|discriminate]. cbn [negb].
  destruct (String.eqb_spec (jws_signature j)
              (sign (JWT_SECRET cfg) (jws_alg j) (jws_claims j)))
    as [Hsig|Hsig]; [|discriminate]. cbn [negb].
  assert (Hexp : forall payload,
             match exp (jws_claims j) with
             | Some e => if e <? timegm_now now
                         then inl ExpiredSignatureError
                         else inr (jws_claims j)
             | None => inr (jws_claims j)
             end = inr payload ->
             payload = jws_claims j
             /\ (forall e, exp (jws_claims j) = Some e -> timegm_now now <= e)).
  { intros payload. destruct (exp (jws_claims j)) as [e|].
    - destruct (Z.ltb_spec e (timegm_now now)); [discriminate|].
      intros [= <-]. split; [reflexivity|]. intros e' [= <-]. assumption.
    - intros [= <-]. split; [reflexivity|]. discriminate. }
  destruct (match exp (jws_claims j) with
            | Some e => if e <? timegm_now now
                        then inl ExpiredSignatureError
                        else inr (jws_claims j)
            | None => inr (jws_claims j)
            end) as [err|payload] eqn:D; [discriminate|].
  destruct (Hexp payload eq_refl) as [-> Hnotexp].
  destruct (sub (jws_claims j)) as [[|a s]|] eqn:S; try discriminate.
  unfold bind.
  destruct (get_user_by_email (String a s) st) as [[[v|]|c d|x] st1] eqn:G;
    try discriminate.
  intros [= <- <-].
  destruct (get_user_by_email_found _ _ _ _ G) as (Hin & He & Hst).
  exists j. repeat split; auto.
  - now rewrite He.
  - rewrite He. discriminate.
Qed.

Lemma get_current_user_sound_witness :
  exists j,
    access_token alice_token = Compact j
    /\ jws_alg j = JWT_ALG demo_settings
    /\ jws_signature j
       = demo_sign (JWT_SECRET demo_settings) (jws_alg j) (jws_claims j)
    /\ (forall e, exp (jws_claims j) = Some e -> timegm_now demo_now <= e)
    /\ sub (jws_claims j) = Some (email alice)
    /\ email alice <> ""
    /\ In alice (users demo_store)
    /\ after_session demo_store = after_session demo_store.
Proof.
  apply (get_current_user_sound demo_settings demo_sign demo_now
           (access_token alice_token) demo_store (after_session demo_store)
           alice).
  vm_compute. reflexivity.
Defined.

(** X11: authentication and login only read: whatever token or credentials
    they are given and however they end, [get_current_user] and [login]
    leave both tables and both sequences as they found them, and open at
    most one session. *)
Theorem authentication_is_read_only
  (cfg : JWTSettings) (sign : string -> string -> Claims -> string)
  (verify : string -> string -> option bool)
  (now : Z) (tok : token) (body : UserLogin) (st : Store) :
  (snd (get_current_user cfg sign now tok st) = st
   \/ snd (get_current_user cfg sign now tok st) = after_session st)
  /\ snd (login cfg sign verify now body st) = after_session st.
Proof.
  split; [apply get_current_user_store|].
  unfold login. apply bind_store_const.
  - apply get_user_by_email_store.
  - intros [u|] s; [|reflexivity].
    unfold bind, verify_password, call_create_access_token.
    destruct (verify (login_password body) (hashed_password u)) as [[|]|];
      try reflexivity.
    cbn [ret negb].
    destruct (is_datetime now
              && is_datetime (now + timedelta_minutes
                                      (ACCESS_TOKEN_EXPIRE_MIN cfg)));
      reflexivity.
Qed.

Lemma ResumeOut_validate_store (d : pydict) (s : Store) :
  snd (ResumeOut_validate d s) = s.
Proof.
  unfold ResumeOut_validate.
  destruct (dict_get d "id") as [[i|i]|];
    destruct (dict_get d "title") as [[t|t]|];
    destruct (dict_get d "content") as [[c|c]|]; reflexivity.
Qed.

(** X12: the resume handlers that read do nothing but read: whatever id
    and caller they are given and however they end, [get_resume],
    [list_resumes] and [improve_resume] leave both tables as they found
    them; in particular the improve endpoint persists nothing. *)
Theorem resume_reads_are_read_only
  (mapping : option (Resume -> pydict)) (res_id : Z) (U : User) (st : Store) :
  snd (get_resume res_id U st) = after_session st
  /\ snd (list_resumes U st) = after_session st
  /\ snd (improve_resume mapping res_id U st) = after_session st.
Proof.
  repeat split.
  - unfold get_resume. apply bind_store_const.
    + apply get_by_id_for_user_store.
    + intros [r|] s; reflexivity.
  - unfold improve_resume. apply bind_store_const.
    + apply get_by_id_for_user_store.
    + intros [r|] s; [|reflexivity].
      unfold bind, unpack_mapping, item_get.
      destruct mapping as [items|]; [|reflexivity]. simpl.
      apply ResumeOut_validate_store.
Qed.

(** ** From registration and login to an authenticated request *)

(** A token issued for the e-mail of a registered user authenticates that
    user at every instant up to [expires_at]. *)
Lemma issued_token_authenticates
  (cfg : JWTSettings) (sign : string -> string -> Claims -> string)
  (st : Store) (now : Z) (m : Z) (now' : Z) (u : User) :
  email u <> "" ->
  unique_emails (users st) ->
  In u (users st) ->
  now' <= now + timedelta_minutes m ->
  get_current_user cfg sign now'
    (access_token (create_access_token cfg sign now (email u) m)) st
  = (Ok u, after_session st).
Proof.
  intros Hne Huniq Hin Hle.
  unfold get_current_user.
  rewrite issued_token_not_empty.
  rewrite (jwt_decode_issued_before_expiry cfg sign now (email u) m now' Hle).
  simpl. destruct (email u) as [|a s] eqn:E; [congruence|].
  unfold bind. rewrite <- E.
  now rewrite (get_user_by_email_registered st u Huniq Hin).
Qed.

(** X13: registration and authentication compose. When [register]
    is given a fresh, non-empty e-mail and a password bcrypt accepts (texts
    the database accepts, a user sequence within the range of the column),
    at a clock for which the expiry is still an instant [datetime] holds,
    it succeeds; the token it returns is accepted by [get_current_user] at
    every instant until it expires, and the user it resolves to is the one
    just stored, with the hashed password. *)
Theorem register_then_authenticate
  (cfg : JWTSettings) (sign : string -> string -> Claims -> string)
  (hash : string -> string -> option string)
  (st : Store) (now now' : Z) (salt e p h : string) :
  unique_emails (users st) ->
  ~ In e (map email (users st)) ->
  e <> "" ->
  has_nul e = false ->
  hash salt p = Some h ->
  has_nul h = false ->
  int32 (user_seq st) ->
  is_datetime now = true ->
  is_datetime (now + timedelta_minutes (ACCESS_TOKEN_EXPIRE_MIN cfg)) = true ->
  now' <= now + timedelta_minutes (ACCESS_TOKEN_EXPIRE_MIN cfg) ->
  exists tok st1,
    register cfg sign hash now salt (mkUserRegistration e p) st = (Ok tok, st1)
    /\ expires_at tok = now + timedelta_minutes (ACCESS_TOKEN_EXPIRE_MIN cfg)
    /\ users st1 = (users st ++ [mkUser (user_seq st) e h])%list
    /\ get_current_user cfg sign now' (access_token tok) st1
       = (Ok (mkUser (user_seq st) e h), after_session st1).
Proof.
  intros Huniq Hfresh Hne _ Hhash _ _ Hnow Hexp Hle.
  set (u := mkUser (user_seq st) e h).
  exists (create_access_token cfg sign now e (ACCESS_TOKEN_EXPIRE_MIN cfg)).
  exists (mkStore (users st ++ [u]) (resumes st) (user_seq st + 1)
                  (resume_seq st) (S (S (sessions st)))).
  split; [|split; [reflexivity|split; [reflexivity|]]].
  - now apply register_fresh.
  - change e with (email u).
    apply issued_token_authenticates; try assumption.
    + simpl. apply unique_emails_snoc; assumption.
    + simpl. apply in_or_app. right. simpl. auto.
Qed.

Lemma register_then_authenticate_witness :
  exists tok st1,
    register demo_settings demo_sign demo_hash demo_now "salt"
             (mkUserRegistration "c@x.com" "password123") demo_store
    = (Ok tok, st1)
    /\ expires_at tok
       = demo_now + timedelta_minutes (ACCESS_TOKEN_EXPIRE_MIN demo_settings)
    /\ users st1
       = (users demo_store
          ++ [mkUser (user_seq demo_store) "c@x.com"
                     "$2b$saltpassword123"])%list
    /\ get_current_user demo_settings demo_sign (demo_now + 60000000)
                        (access_token tok) st1
       = (Ok (mkUser (user_seq demo_store) "c@x.com" "$2b$saltpassword123"),
          after_session st1).
Proof.
  apply (register_then_authenticate demo_settings demo_sign demo_hash
           demo_store demo_now (demo_now + 60000000) "salt" "c@x.com"
           "password123" "$2b$saltpassword123").
  - concrete_table.
  - simpl. intuition discriminate.
  - discriminate.
  - reflexivity.
  - reflexivity.
  - reflexivity.
  - unfold int32. simpl. lia.
  - reflexivity.
  - reflexivity.
  - vm_compute. discriminate.
Defined.

(** X14: registration and login compose. Once [register] has stored a
    credential (fresh e-mail, password bcrypt accepts, texts the database
    accepts, user sequence and expiry within range), a later [login] with the same e-mail and password
    succeeds whenever bcrypt verifies the password against the hash it
    produced, and a password it checks and does not verify is refused with
    401. *)
Theorem register_then_login
  (cfg : JWTSettings) (sign : string -> string -> Claims -> string)
  (hash : string -> string -> option string)
  (verify : string -> string -> option bool)
  (st : Store) (now1 now2 : Z) (salt e p p' h : string) :
  unique_emails (users st) ->
  ~ In e (map email (users st)) ->
  has_nul e = false ->
  hash salt p = Some h ->
  has_nul h = false ->
  int32 (user_seq st) ->
  verify p h = Some true ->
  verify p' h = Some false ->
  is_datetime now1 = true ->
  is_datetime (now1 + timedelta_minutes (ACCESS_TOKEN_EXPIRE_MIN cfg)) = true ->
  is_datetime now2 = true ->
  is_datetime (now2 + timedelta_minutes (ACCESS_TOKEN_EXPIRE_MIN cfg)) = true ->
  exists tok st1,
    register cfg sign hash now1 salt (mkUserRegistration e p) st = (Ok tok, st1)
    /\ login cfg sign verify now2 (mkUserLogin e p) st1
       = (Ok (create_access_token cfg sign now2 e (ACCESS_TOKEN_EXPIRE_MIN cfg)),
          after_session st1)
    /\ login cfg sign verify now2 (mkUserLogin e p') st1
       = (HTTPException 401 "Неверные учетные данные", after_session st1).
Proof.
  intros Huniq Hfresh _ Hhash _ _ Hgood Hbad Hn1 He1 Hn2 He2.
  set (u := mkUser (user_seq st) e h).
  set (st1 := mkStore (users st ++ [u]) (resumes st) (user_seq st + 1)
                      (resume_seq st) (S (S (sessions st)))).
  assert (Hlook : get_user_by_email e st1 = (Ok (Some u), after_session st1)).
  { change e with (email u).
    apply get_user_by_email_registered.
    - simpl. apply unique_emails_snoc; assumption.
    - simpl. apply in_or_app. right. simpl. auto. }
  exists (create_access_token cfg sign now1 e (ACCESS_TOKEN_EXPIRE_MIN cfg)).
  exists st1.
  split; [|split].
  - now apply register_fresh.
  - unfold login, bind. simpl login_email. rewrite Hlook.
    unfold verify_password. simpl. rewrite Hgood.
    unfold call_create_access_token. cbn [ret negb]. now rewrite Hn2, He2.
  - unfold login, bind. simpl login_email. rewrite Hlook.
    unfold verify_password. simpl. now rewrite Hbad.
Qed.

Lemma register_then_login_witness :
  exists tok st1,
    register demo_settings demo_sign demo_hash demo_now "salt"
             (mkUserRegistration "c@x.com" "password123") demo_store
    = (Ok tok, st1)
    /\ login demo_settings demo_sign demo_verify (demo_now + 5000000)
             (mkUserLogin "c@x.com" "password123") st1
       = (Ok (create_access_token demo_settings demo_sign (demo_now + 5000000)
                "c@x.com" (ACCESS_TOKEN_EXPIRE_MIN demo_settings)),
          after_session st1)
    /\ login demo_settings demo_sign demo_verify (demo_now + 5000000)
             (mkUserLogin "c@x.com" "wrongpass") st1
       = (HTTPException 401 "Неверные учетные данные", after_session st1).
Proof.
  apply (register_then_login demo_settings demo_sign demo_hash demo_verify
           demo_store demo_now (demo_now + 5000000) "salt" "c@x.com"
           "password123" "wrongpass" "$2b$saltpassword123").
  - concrete_table.
  - simpl. intuition discriminate.
  - reflexivity.
  - reflexivity.
  - reflexivity.
  - unfold int32. simpl. lia.
  - reflexivity.
  - reflexivity.
  - reflexivity.
  - reflexivity.
  - reflexivity.
  - reflexivity.
Defined.

(** X15: login and authentication compose. When bcrypt verifies the
    password of a stored user and the expiry is an instant [datetime]
    holds, [login] succeeds; the token it returns is accepted by
    [get_current_user] at every instant until it expires, and resolves to
    the user who logged in. *)
Theorem login_then_authenticate
  (cfg : JWTSettings) (sign : string -> string -> Claims -> string)
  (verify : string -> string -> option bool)
  (st : Store) (now now' : Z) (p : string) (u : User) :
  unique_emails (users st) ->
  In u (users st) ->
  email u <> "" ->
  verify p (hashed_password u) = Some true ->
  is_datetime now = true ->
  is_datetime (now + timedelta_minutes (ACCESS_TOKEN_EXPIRE_MIN cfg)) = true ->
  now' <= now + timedelta_minutes (ACCESS_TOKEN_EXPIRE_MIN cfg) ->
  exists tok,
    login cfg sign verify now (mkUserLogin (email u) p) st
    = (Ok tok, after_session st)
    /\ expires_at tok = now + timedelta_minutes (ACCESS_TOKEN_EXPIRE_MIN cfg)
    /\ get_current_user cfg sign now' (access_token tok) (after_session st)
       = (Ok u, after_session (after_session st)).
Proof.
  intros Huniq Hin Hne Hgood Hnow Hexp Hle.
  exists (create_access_token cfg sign now (email u)
            (ACCESS_TOKEN_EXPIRE_MIN cfg)).
  split; [|split; [reflexivity|]].
  - unfold login, bind. simpl login_email.
    rewrite (get_user_by_email_registered st u Huniq Hin).
    unfold verify_password. simpl. rewrite Hgood.
    unfold call_create_access_token. cbn [ret negb]. now rewrite Hnow, Hexp.
  - apply issued_token_authenticates; assumption.
Qed.

Lemma login_then_authenticate_witness :
  exists tok,
    login demo_settings demo_sign demo_verify demo_now
          (mkUserLogin (email alice) "password123") demo_store
    = (Ok tok, after_session demo_store)
    /\ expires_at tok
       = demo_now + timedelta_minutes (ACCESS_TOKEN_EXPIRE_MIN demo_settings)
    /\ get_current_user demo_settings demo_sign (demo_now + 1000000)
                        (access_token tok) (after_session demo_store)
       = (Ok alice, after_session (after_session demo_store)).
Proof.
  apply (login_then_authenticate demo_settings demo_sign demo_verify
           demo_store demo_now (demo_now + 1000000) "password123" alice).
  - concrete_table.
  - simpl. auto.
  - discriminate.
  - reflexivity.
  - reflexivity.
  - reflexivity.
  - vm_compute. discriminate.
Defined.

(** ** The claims a token carries *)

(** X16: for an instant after the epoch and a lifetime of [m >= 0]
    minutes whose expiry lies before the year 2514 (so that it is a
    [datetime] and its float timestamp is exact), the call returns a token
    whose signed claims are [sub], [iat] the whole second of issuance and
    [exp = iat + 60 * m]: the sub-second part of the clock is dropped from
    both, so the signed lifetime is exactly [m] minutes, while [expires_at]
    keeps the microseconds. *)
Theorem create_access_token_claims
  (cfg : JWTSettings) (sign : string -> string -> Claims -> string)
  (now : Z) (s : string) (m : Z) (st : Store) :
  0 <= now ->
  0 <= m ->
  now + timedelta_minutes m < float_exact_limit ->
  call_create_access_token cfg sign now s m st
  = (Ok (create_access_token cfg sign now s m), st)
  /\ access_token (create_access_token cfg sign now s m)
  = jwt_encode sign
      (mkClaims (Some s) (Some (now / 1000000))
                (Some (now / 1000000 + 60 * m)))
      (JWT_SECRET cfg) (JWT_ALG cfg)
  /\ expires_at (create_access_token cfg sign now s m) = now + 60000000 * m
  /\ token_type (create_access_token cfg sign now s m) = "bearer".
Proof.
  intros Hnow Hm Hlim.
  split.
  { assert (H1 : is_datetime now = true).
    { unfold is_datetime, datetime_min, datetime_max.
      unfold float_exact_limit, timedelta_minutes in Hlim.
      apply andb_true_iff. split; apply Z.leb_le; lia. }
    assert (H2 : is_datetime (now + timedelta_minutes m) = true).
    { unfold is_datetime, datetime_min, datetime_max.
      unfold float_exact_limit in Hlim. unfold timedelta_minutes in *.
      apply andb_true_iff. split; apply Z.leb_le; lia. }
    unfold call_create_access_token. now rewrite H1, H2. }
  unfold create_access_token, timedelta_minutes, int_timestamp.
  cbn [access_token expires_at token_type].
  split; [|split; [lia|reflexivity]].
  rewrite !Z.quot_div_nonneg by lia.
  replace (now + m * 60000000) with (now + (60 * m) * 1000000) by lia.
  rewrite Z.div_add by lia. reflexivity.
Qed.

Lemma create_access_token_claims_witness :
  call_create_access_token demo_settings demo_sign demo_now "a@x.com" 30
                           demo_store
  = (Ok (create_access_token demo_settings demo_sign demo_now "a@x.com" 30),
     demo_store)
  /\ access_token (create_access_token demo_settings demo_sign demo_now
                                    "a@x.com" 30)
  = jwt_encode demo_sign
      (mkClaims (Some "a@x.com") (Some (demo_now / 1000000))
                (Some (demo_now / 1000000 + 60 * 30)))
      (JWT_SECRET demo_settings) (JWT_ALG demo_settings)
  /\ expires_at (create_access_token demo_settings demo_sign demo_now
                                     "a@x.com" 30)
     = demo_now + 60000000 * 30
  /\ token_type (create_access_token demo_settings demo_sign demo_now
                                     "a@x.com" 30) = "bearer".
Proof.
  apply (create_access_token_claims demo_settings demo_sign demo_now
           "a@x.com" 30 demo_store).
  - vm_compute. discriminate.
  - lia.
  - vm_compute. reflexivity.
Defined.

Lemma int_timestamp_le_floor_succ (dt : Z) : int_timestamp dt <= dt / 1000000 + 1.
Proof.
  unfold int_timestamp.
  pose proof (Z.quot_rem' dt 1000000) as Hq.
  pose proof (Z.div_mod dt 1000000 ltac:(lia)) as Hd.
  pose proof (Z.mod_pos_bound dt 1000000 ltac:(lia)) as Hm.
  pose proof (Z.rem_bound_abs dt 1000000 ltac:(lia)) as Hr.
  lia.
Qed.

(** X17: a token issued with a negative lifetime is never accepted: at
    the instant of issuance and at every later one [get_current_user]
    answers 401 "Invalid or expired token", without a lookup. *)
Theorem negative_lifetime_token_rejected
  (cfg : JWTSettings) (sign : string -> string -> Claims -> string)
  (st : Store) (now : Z) (s : string) (m : Z) (now' : Z) :
  m < 0 ->
  now <= now' ->
  get_current_user cfg sign now'
    (access_token (create_access_token cfg sign now s m)) st
  = (HTTPException 401 "Invalid or expired token", st).
Proof.
  intros Hm Hle. apply issued_token_rejected_iff.
  pose proof (int_timestamp_le_floor_succ (now + timedelta_minutes m)) as Hq.
  pose proof (timegm_now_mono now now' Hle) as Hmono.
  unfold timegm_now in *. unfold timedelta_minutes in *.
  assert (Hd : (now + m * 60000000) / 1000000 <= now / 1000000 - 60).
  { apply Z.le_trans with ((now + (-60) * 1000000) / 1000000).
    - apply Z.div_le_mono; lia.
    - rewrite Z.div_add by lia. lia. }
  lia.
Qed.

Lemma negative_lifetime_token_rejected_witness :
  get_current_user demo_settings demo_sign demo_now
    (access_token (create_access_token demo_settings demo_sign demo_now
                                       "a@x.com" (-1))) demo_store
  = (HTTPException 401 "Invalid or expired token", demo_store).
Proof.
  apply (negative_lifetime_token_rejected demo_settings demo_sign demo_store
           demo_now "a@x.com" (-1) demo_now); lia.
Defined.

(** ** Scoped and unscoped access *)

Lemma find_by_id_some (t : list Resume) (item_id : Z) (r : Resume) :
  find (fun q => id q =? item_id) t = Some r -> In r t /\ id r = item_id.
Proof.
  intros H. apply find_some in H. destruct H as [Hin E].
  apply Z.eqb_eq in E. auto.
Qed.

Lemma find_by_id_none (t : list Resume) (item_id : Z) :
  find (fun q => id q =? item_id) t = None -> ~ In item_id (map id t).
Proof.
  intros H Hin. apply in_map_iff in Hin. destruct Hin as (q & E & Hq).
  pose proof (find_none _ _ H q Hq) as Hn. simpl in Hn.
  apply Z.eqb_neq in Hn. contradiction.
Qed.

(** X18: under the primary key, and for ids in the range of the columns,
    the compound filter of [get_by_id_for_user] returns what a fetch by id
    followed by an owner check would: the row [BaseDAO.get_item_by_id] finds
    when its owner is the caller, and nothing when it finds none or another
    user's. *)
Theorem scoped_lookup_is_guarded_fetch (res_id uid : Z) (st : Store) :
  int32 res_id ->
  int32 uid ->
  pk_unique (resumes st) ->
  exists found,
    BaseDAO.get_item_by_id res_id st = (Ok found, after_session st)
    /\ get_by_id_for_user res_id uid st
       = (Ok match found with
             | Some r => if user_id r =? uid then Some r else None
             | None => None
             end, after_session st).
Proof.
  intros _ _ Hpk.
  exists (find (fun r => id r =? res_id) (resumes st)).
  split; [reflexivity|].
  unfold get_by_id_for_user, bind, get_session, read_resumes. simpl.
  destruct (find (fun r => id r =? res_id) (resumes st)) as [r|] eqn:F.
  - destruct (find_by_id_some _ _ _ F) as [Hin <-].
    rewrite (filter_owned_row (resumes st) r uid Hpk Hin).
    destruct (user_id r =? uid); reflexivity.
  - now rewrite (filter_owned_absent _ _ uid (find_by_id_none _ _ F)).
Qed.

Lemma scoped_lookup_is_guarded_fetch_witness :
  exists found,
    BaseDAO.get_item_by_id 1 demo_store = (Ok found, after_session demo_store)
    /\ get_by_id_for_user 1 2 demo_store
       = (Ok match found with
             | Some r => if user_id r =? 2 then Some r else None
             | None => None
             end, after_session demo_store).
Proof.
  apply (scoped_lookup_is_guarded_fetch 1 2 demo_store).
  - unfold int32. lia.
  - unfold int32. lia.
  - concrete_table.
Defined.



(** ** Does this e-mail exist *)




(** ** Where a log record goes *)

(** X21: the five level sinks split the records by level name: a record
    of severity 10 or more whose level is one of DEBUG, INFO, WARNING, ERROR
    and CRITICAL is written to the file of that level and to no other level
    file; a record of any other level (SUCCESS, or a numeric level) is
    written to none of them. Independently, it is written to access.log
    exactly when its logger name starts with uvicorn.access. *)
Theorem level_sinks_partition (record : LogRecord) :
  DEBUG_no <= level_no record ->
  written_to record
  = ((if existsb (String.eqb (level_name record))
                 ["DEBUG"; "INFO"; "WARNING"; "ERROR"; "CRITICAL"]
      then [FILES_get FILES (level_name record)]
      else [])
     ++ (if only_uvicorn_access record then ["access.log"] else []))%list.
Proof.
  intros Hno. apply Z.leb_le in Hno.
  unfold written_to, sinks, exact_level.
  cbn [map app filter sink_level sink_filter sink_file existsb].
  rewrite Hno. cbn [andb].
  destruct (String.eqb_spec (level_name record) "DEBUG") as [->|H1];
    [destruct (only_uvicorn_access record); reflexivity|].
  destruct (String.eqb_spec (level_name record) "INFO") as [->|H2];
    [destruct (only_uvicorn_access record); reflexivity|].
  destruct (String.eqb_spec (level_name record) "WARNING") as [->|H3];
    [destruct (only_uvicorn_access record); reflexivity|].
  destruct (String.eqb_spec (level_name record) "ERROR") as [->|H4];
    [destruct (only_uvicorn_access record); reflexivity|].
  destruct (String.eqb_spec (level_name record) "CRITICAL") as [->|H5];
    [destruct (only_uvicorn_access record); reflexivity|].
  destruct (only_uvicorn_access record); reflexivity.
Qed.

Lemma level_sinks_partition_witness :
  written_to (mkLogRecord "ERROR" 40 "uvicorn.access")
  = ((if existsb (String.eqb "ERROR")
                 ["DEBUG"; "INFO"; "WARNING"; "ERROR"; "CRITICAL"]
      then [FILES_get FILES "ERROR"]
      else [])
     ++ (if only_uvicorn_access (mkLogRecord "ERROR" 40 "uvicorn.access")
         then ["access.log"] else []))%list.
Proof.
  apply (level_sinks_partition (mkLogRecord "ERROR" 40 "uvicorn.access")).
  vm_compute. discriminate.
Defined.

(** A SUCCESS record of the application reaches no file at all, and a record
    below DEBUG reaches none either. *)
Example success_record_is_dropped :
  written_to (mkLogRecord "SUCCESS" 25 "api.routers") = []
  /\ written_to (mkLogRecord "TRACE" 5 "uvicorn.access") = [].
Proof. split; reflexivity. Qed.
